(** * Daily settlement estimator (app.py): a shallow embedding

    The estimator [estimate_daily_settlement] of [app.py] is embedded as a
    function in a small state-and-exception monad: the state is the
    process-wide random generator it draws noise from, the exceptions are
    the Python exceptions the body can raise.  Python floats are IEEE-754
    binary64 numbers, embedded as Rocq's primitive floats; Python integers
    are [Z]. *)

From Stdlib Require Import ZArith List String Bool Lia.
From Stdlib Require Import Floats.
From Stdlib Require Uint63.
From stdpp Require Import gmap.
From Stdlib Require Import Sorted.
From stdpp Require Import pretty.

Local Open Scope Z_scope.
Local Set Warnings "-inexact-float".

(** ** Exceptions and results *)

(** The Python exceptions reachable from the estimator's body.
    [IllegalMonthError] is [calendar]'s subclass of [ValueError]. *)
Inductive exn : Set :=
| IllegalMonthError
| ValueError
| TypeError
| OverflowError.

Inductive result (A : Type) : Type :=
| Ok (a : A)
| Raise (e : exn).
Arguments Ok {A} a.
Arguments Raise {A} e.

(** [ValueError] and its subclasses: the class of "invalid argument"
    errors. *)
Definition is_value_error (e : exn) : bool :=
  match e with
  | IllegalMonthError | ValueError => true
  | TypeError | OverflowError => false
  end.

(** ** The random generator and the monad *)

(** [np.random.normal] reads and advances a process-wide generator.  The
    generator is a stream of draws, [draws k loc scale] being what the k-th
    call returns when asked for mean [loc] and deviation [scale], and the
    number [pos] of calls made so far. *)
Record rng : Type := { draws : nat -> float -> float -> float; pos : nat }.

Definition M (A : Type) : Type := rng -> result A * rng.

Definition ret {A} (a : A) : M A := fun g => (Ok a, g).

Definition raise {A} (e : exn) : M A := fun g => (Raise e, g).

Definition bind {A B} (c : M A) (k : A -> M B) : M B :=
  fun g =>
    match c g with
    | (Ok a, g') => k a g'
    | (Raise e, g') => (Raise e, g')
    end.

Definition lift {A} (r : result A) : M A := fun g => (r, g).

Declare Scope py_scope.
Delimit Scope py_scope with py.
Notation "x <- c ;; k" := (bind c (fun x => k))
  (at level 100, c at next level, right associativity) : py_scope.
Local Open Scope py_scope.

(** [np.random.normal(loc, scale)] *)
Definition normal (loc scale : float) : M float :=
  fun g => (Ok (draws g (pos g) loc scale),
            {| draws := draws g; pos := S (pos g) |}).

(** A [for] loop that updates an accumulator. *)
Fixpoint foldM {A B} (f : A -> B -> M A) (acc : A) (l : list B) : M A :=
  match l with
  | [] => ret acc
  | x :: t => acc' <- f acc x ;; foldM f acc' t
  end.

(** A [for] loop that appends one item per iteration to a list. *)
Fixpoint mapM {A B} (f : A -> M B) (l : list A) : M (list B) :=
  match l with
  | [] => ret []
  | x :: t => y <- f x ;; ys <- mapM f t ;; ret (y :: ys)
  end.

(** ** Numbers *)

(** Conversion of a Python [int] to [float], for the small non-negative
    integers the estimator converts (a day count, a month number). *)
Definition float_of_int (z : Z) : float :=
  PrimFloat.of_uint63 (Uint63.of_Z z).

(** The nearest integer to [m * 2^e], ties to the even one. *)
Definition round_half_even (m : positive) (e : Z) : Z :=
  if 0 <=? e then Z.pos m * 2 ^ e
  else
    let d := 2 ^ (- e) in
    let q := Z.pos m / d in
    let r := Z.pos m mod d in
    match 2 * r ?= d with
    | Lt => q
    | Gt => q + 1
    | Eq => if Z.even q then q else q + 1
    end.

(** Python's [round(x)] on a float: the nearest integer, ties to even;
    [ValueError] on NaN and [OverflowError] on an infinity. *)
Definition py_round (x : float) : result Z :=
  match Prim2SF x with
  | S754_zero _ => Ok 0
  | S754_infinity _ => Raise OverflowError
  | S754_nan => Raise ValueError
  | S754_finite s m e =>
      Ok (if s then - round_half_even m e else round_half_even m e)
  end.

(** ** Table cells *)

(** A cell of a master table as [iterrows] hands it out: a number
    (integers are exact binary64 values; a missing number is NaN) or
    text. *)
Inductive cell : Type :=
| Num (x : float)
| Text (s : string).

(** [c / n] for an integer [n]. *)
Definition cell_div (c : cell) (n : Z) : result float :=
  match c with
  | Num x => Ok (x / float_of_int n)%float
  | Text _ => Raise TypeError
  end.

(** [x * c] for a float [x]. *)
Definition cell_rmul (x : float) (c : cell) : result float :=
  match c with
  | Num r => Ok (x * r)%float
  | Text _ => Raise TypeError
  end.

(** [c == n] for an integer [n]. *)
Definition cell_eq_int (c : cell) (n : Z) : bool :=
  match c with
  | Num x => PrimFloat.eqb x (float_of_int n)
  | Text _ => false
  end.

(** ** The master tables *)

Module Rev.
Record row : Type := {
  company_id : string;
  company_name : string;
  monthly_base : cell;
  payment_cycle_days : cell;
  shipping_fee_rate : cell;
  seasonal_peak : cell
}.
End Rev.

Module Exp.
Record row : Type := {
  company_id : string;
  company_name : string;
  monthly_base : cell;
  payment_cycle_days : cell;
  category : string
}.
End Exp.

(** ** Dates ([datetime.date] and [calendar]) *)

Definition MINYEAR : Z := 1.
Definition MAXYEAR : Z := 9999.

Definition isleap (year : Z) : bool :=
  (year mod 4 =? 0) && (negb (year mod 100 =? 0) || (year mod 400 =? 0)).

Definition mdays (month : Z) : Z :=
  match month with
  | 1 => 31 | 2 => 28 | 3 => 31 | 4 => 30 | 5 => 31 | 6 => 30
  | 7 => 31 | 8 => 31 | 9 => 30 | 10 => 31 | 11 => 30 | 12 => 31
  | _ => 0
  end.

Definition ndays (year month : Z) : Z :=
  mdays month + (if (month =? 2) && isleap year then 1 else 0).

Definition days_before_year (year : Z) : Z :=
  let y := year - 1 in y * 365 + y / 4 - y / 100 + y / 400.

Definition DAYS_BEFORE_MONTH (month : Z) : Z :=
  match month with
  | 1 => 0 | 2 => 31 | 3 => 59 | 4 => 90 | 5 => 120 | 6 => 151
  | 7 => 181 | 8 => 212 | 9 => 243 | 10 => 273 | 11 => 304 | 12 => 334
  | _ => -1
  end.

Definition days_before_month (year month : Z) : Z :=
  DAYS_BEFORE_MONTH month + (if (2 <? month) && isleap year then 1 else 0).

Record date : Type := { year : Z; month : Z; day : Z }.

(** The integers that fit a C [int]. *)
Definition fits_c_int (z : Z) : bool :=
  (- 2 ^ 31 <=? z) && (z <? 2 ^ 31).

(** The constructor [date(year, month, day)]: its three arguments are
    first converted to C integers, which raises [OverflowError] for an
    argument that does not fit one; a year, month or day out of range
    then raises [ValueError]. *)
Definition mk_date (y m d : Z) : result date :=
  if fits_c_int y && fits_c_int m && fits_c_int d then
    if (MINYEAR <=? y) && (y <=? MAXYEAR)
       && (1 <=? m) && (m <=? 12)
       && (1 <=? d) && (d <=? ndays y m)
    then Ok {| year := y; month := m; day := d |}
    else Raise ValueError
  else Raise OverflowError.

Definition toordinal (d : date) : Z :=
  days_before_year (year d) + days_before_month (year d) (month d) + day d.

(** [d.weekday()]: Monday is 0, Sunday is 6. *)
Definition weekday (d : date) : Z := (toordinal d + 6) mod 7.

(** [calendar.weekday]: a year out of [date]'s range is replaced by one
    with the same calendar. *)
Definition calendar_weekday (y m d : Z) : result Z :=
  let y' := if (MINYEAR <=? y) && (y <=? MAXYEAR) then y
            else 2000 + y mod 400 in
  match mk_date y' m d with
  | Ok dt => Ok (weekday dt)
  | Raise e => Raise e
  end.

(** [calendar.monthrange(year, month)]: the weekday of the first day and
    the number of days. *)
Definition monthrange (y m : Z) : result (Z * Z) :=
  if (1 <=? m) && (m <=? 12) then
    match calendar_weekday y m 1 with
    | Ok day1 => Ok (day1, ndays y m)
    | Raise e => Raise e
    end
  else Raise IllegalMonthError.

(** ** The estimator *)

(** One output record, as appended to [records] in the day loop.  The
    fields are the columns of the result, in order: the date, the weekday
    label, estimated revenue, shipping revenue, total revenue, estimated
    expense and estimated profit. *)
Record record : Type := {
  rec_date : date;
  weekday_label : string;
  estimated_revenue : Z;
  shipping_revenue : Z;
  total_revenue : Z;
  estimated_expense : Z;
  estimated_profit : Z
}.

(** A row of the returned frame: a record and the cumulative-profit
    column added after the loop. *)
Record daily_estimate : Type := {
  fields : record;
  cumulative_profit : Z
}.

Definition default_table : list float :=
  [ 0.85; 0.88; 1.05; 0.95; 0.92; 1.02;
    1.10; 1.08; 0.98; 1.00; 1.05; 1.15 ]%float.

(** The built-in table [{1: 0.85, 2: 0.88, ..., 12: 1.15}]. *)
Definition default_seasonal_factors : gmap Z float :=
  list_to_map (zip (seqZ 1 12) default_table).

Definition weekday_labels : list string :=
  [ "月"; "火"; "水"; "木"; "金"; "土"; "日" ]%string.

(** The table in use: the built-in one when the caller passes [None]. *)
Definition seasonal_table (seasonal_factors : option (gmap Z float))
  : gmap Z float :=
  match seasonal_factors with
  | None => default_seasonal_factors
  | Some t => t
  end.

(** [seasonal_factors.get(target_month, 1.0)] *)
Definition season_factor (seasonal_factors : option (gmap Z float))
    (target_month : Z) : float :=
  default 1.0%float (seasonal_table seasonal_factors !! target_month).

Definition inflation_factor (inflation_rate : float) : float :=
  (1 + inflation_rate)%float.

Definition day_factor (dow : Z) : float :=
  if dow <? 5 then 1.0%float else 0.3%float.

Definition peak_bonus (comp : Rev.row) (target_month : Z) : float :=
  if cell_eq_int (Rev.seasonal_peak comp) target_month
  then 1.2%float else 1.0%float.

Section Day.
Variables (days_in_month target_month : Z).
Variables (season inflation dayf : float).

(** The body of the loop over the revenue table; the accumulator is
    [(daily_revenue, daily_shipping)]. *)
Definition revenue_step (acc : float * float) (comp : Rev.row)
  : M (float * float) :=
  base <- lift (cell_div (Rev.monthly_base comp) days_in_month) ;;
  let bonus := peak_bonus comp target_month in
  noise <- normal 1.0 0.05 ;;
  let rev := (base * season * inflation * dayf * bonus * noise)%float in
  ship <- lift (cell_rmul rev (Rev.shipping_fee_rate comp)) ;;
  ret ((fst acc + rev)%float, (snd acc + ship)%float).

(** The body of the loop over the expense table; the accumulator is
    [daily_expense]. *)
Definition expense_step (acc : float) (comp : Exp.row) : M float :=
  base <- lift (cell_div (Exp.monthly_base comp) days_in_month) ;;
  noise <- normal 1.0 0.08 ;;
  let exp := (base * season * inflation * dayf * noise)%float in
  ret (acc + exp)%float.
End Day.

(** The record built from the day's three accumulations; the five
    roundings happen in the order of the dictionary's entries. *)
Definition make_record (d : date) (dow : Z)
    (daily_revenue daily_shipping daily_expense : float) : result record :=
  match py_round daily_revenue with
  | Raise e => Raise e
  | Ok r1 =>
  match py_round daily_shipping with
  | Raise e => Raise e
  | Ok r2 =>
  match py_round (daily_revenue + daily_shipping)%float with
  | Raise e => Raise e
  | Ok r3 =>
  match py_round daily_expense with
  | Raise e => Raise e
  | Ok r4 =>
  match py_round (daily_revenue + daily_shipping - daily_expense)%float with
  | Raise e => Raise e
  | Ok r5 =>
      Ok {| rec_date := d;
            weekday_label := nth (Z.to_nat dow) weekday_labels ""%string;
            estimated_revenue := r1;
            shipping_revenue := r2;
            total_revenue := r3;
            estimated_expense := r4;
            estimated_profit := r5 |}
  end end end end end.

(** The body of the loop over the days of the month. *)
Definition day_record (rev_master : list Rev.row) (exp_master : list Exp.row)
    (target_year target_month days_in_month : Z) (season inflation : float)
    (day : Z) : M record :=
  d <- lift (mk_date target_year target_month day) ;;
  let dow := weekday d in
  let dayf := day_factor dow in
  rs <- foldM (revenue_step days_in_month target_month season inflation dayf)
              (0%float, 0%float) rev_master ;;
  daily_expense <- foldM (expense_step days_in_month season inflation dayf)
                         0%float exp_master ;;
  lift (make_record d dow (fst rs) (snd rs) daily_expense).

(** The type of a frame column built from Python integers: 64-bit signed
    integers when every value fits them, 64-bit unsigned integers when
    every value fits those (and some value needs them), Python objects
    otherwise. *)
Inductive dtype : Set := int64 | uint64 | object.

Definition fits_int64 (z : Z) : bool := (- 2 ^ 63 <=? z) && (z <? 2 ^ 63).

Definition fits_uint64 (z : Z) : bool := (0 <=? z) && (z <? 2 ^ 64).

Definition infer_dtype (l : list Z) : dtype :=
  if forallb fits_int64 l then int64
  else if forallb fits_uint64 l then uint64
  else object.

(** The result of integer arithmetic in a column type: the fixed-width
    types wrap around modulo 2^64, Python integers are exact. *)
Definition to_dtype (t : dtype) (z : Z) : Z :=
  match t with
  | int64 => (z + 2 ^ 63) mod 2 ^ 64 - 2 ^ 63
  | uint64 => z mod 2 ^ 64
  | object => z
  end.

(** [Series.cumsum]: the inclusive running sums, accumulated in the type
    of the column. *)
Fixpoint cumsum_from (t : dtype) (acc : Z) (l : list Z) : list Z :=
  match l with
  | [] => []
  | x :: tl =>
      let s := to_dtype t (acc + x) in s :: cumsum_from t s tl
  end.

Definition cumsum (l : list Z) : list Z := cumsum_from (infer_dtype l) 0 l.

(** The frame built from the records, with the cumulative column. *)
Definition with_cumulative (records : list record) : list daily_estimate :=
  zip_with (fun r c => {| fields := r; cumulative_profit := c |})
           records (cumsum (estimated_profit <$> records)).

Definition estimate_daily_settlement
    (rev_master : list Rev.row) (exp_master : list Exp.row)
    (target_year target_month : Z) (inflation_rate : float)
    (seasonal_factors : option (gmap Z float)) : M (list daily_estimate) :=
  mr <- lift (monthrange target_year target_month) ;;
  let days_in_month := snd mr in
  let season := season_factor seasonal_factors target_month in
  let inflation := inflation_factor inflation_rate in
  records <- mapM (day_record rev_master exp_master target_year target_month
                              days_in_month season inflation)
                  (seqZ 1 days_in_month) ;;
  ret (with_cumulative records).

(** ** The objects of a session *)

(** A frame object: [pd.DataFrame(records)] creates it from the list of
    records, without a cumulative column; the column is added to the
    object by an assignment. *)
Record frame : Type := {
  frame_records : list record;
  frame_cumulative : option (list Z)
}.

(** The rows of a frame that has its cumulative column. *)
Definition frame_rows (f : frame) : list daily_estimate :=
  match frame_cumulative f with
  | Some c =>
      zip_with (fun r x => {| fields := r; cumulative_profit := x |})
               (frame_records f) c
  | None => []
  end.

(** The mutable objects a run of the application can reach: the two
    master tables held by the session, the frames created so far (a frame
    is referred to by its position), the session's reference to the stored
    result, and the process-wide generator. *)
Record world : Type := {
  rev_master : list Rev.row;
  exp_master : list Exp.row;
  frames : list frame;
  daily_result : option nat;
  generator : rng
}.

Definition W (A : Type) : Type := world -> result A * world.

Definition w_ret {A} (a : A) : W A := fun w => (Ok a, w).

Definition w_bind {A B} (c : W A) (k : A -> W B) : W B :=
  fun w =>
    match c w with
    | (Ok a, w') => k a w'
    | (Raise e, w') => (Raise e, w')
    end.

Definition w_lift {A} (r : result A) : W A := fun w => (r, w).

Declare Scope world_scope.
Delimit Scope world_scope with world.
Notation "x <~ c ;; k" := (w_bind c (fun x => k))
  (at level 100, c at next level, right associativity) : world_scope.

(** The world with another generator. *)
Definition with_generator (g : rng) (w : world) : world :=
  {| rev_master := rev_master w;
     exp_master := exp_master w;
     frames := frames w;
     daily_result := daily_result w;
     generator := g |}.

(** A computation on the generator, run on the generator of the world. *)
Definition draw_with {A} (c : M A) : W A :=
  fun w => let (r, g') := c (generator w) in (r, with_generator g' w).

(** [rev_master.iterrows()] and [exp_master.iterrows()]: the rows of the
    table objects as they are when the loop starts. *)
Definition iterrows_rev : W (list Rev.row) := fun w => (Ok (rev_master w), w).

Definition iterrows_exp : W (list Exp.row) := fun w => (Ok (exp_master w), w).

(** [st.session_state.rev_master = edited] and
    [st.session_state.exp_master = edited], the assignments behind the
    save buttons and the uploads of the data-input page. *)
Definition save_rev_master (edited : list Rev.row) : W unit :=
  fun w => (Ok tt,
            {| rev_master := edited;
               exp_master := exp_master w;
               frames := frames w;
               daily_result := daily_result w;
               generator := generator w |}).

Definition save_exp_master (edited : list Exp.row) : W unit :=
  fun w => (Ok tt,
            {| rev_master := rev_master w;
               exp_master := edited;
               frames := frames w;
               daily_result := daily_result w;
               generator := generator w |}).

(** [pd.DataFrame(records)]: a new frame object; the result is its
    reference. *)
Definition new_frame (records : list record) : W nat :=
  fun w => (Ok (length (frames w)),
            {| rev_master := rev_master w;
               exp_master := exp_master w;
               frames := frames w ++ [ {| frame_records := records;
                                          frame_cumulative := None |} ];
               daily_result := daily_result w;
               generator := generator w |}).

(** [df["累計損益"] = df["推定損益"].cumsum()]: the frame object [df] gets
    its cumulative column, in place. *)
Definition assign_cumulative (df : nat) : W unit :=
  fun w => (Ok tt,
            {| rev_master := rev_master w;
               exp_master := exp_master w;
               frames :=
                 alter (fun f =>
                          {| frame_records := frame_records f;
                             frame_cumulative :=
                               Some (cumsum (estimated_profit
                                               <$> frame_records f)) |})
                       df (frames w);
               daily_result := daily_result w;
               generator := generator w |}).

(** [st.session_state.daily_result = df] *)
Definition store_result (df : nat) : W unit :=
  fun w => (Ok tt,
            {| rev_master := rev_master w;
               exp_master := exp_master w;
               frames := frames w;
               daily_result := Some df;
               generator := generator w |}).

(** A [for] loop that appends one item per iteration to a list. *)
Fixpoint mapW {A B} (f : A -> W B) (l : list A) : W (list B) :=
  match l with
  | [] => w_ret []
  | x :: t =>
      (y <~ f x ;; ys <~ mapW f t ;; w_ret (y :: ys))%world
  end.

(** The body of the day loop, on the objects of the session. *)
Definition day_in_session (target_year target_month days_in_month : Z)
    (season inflation : float) (day : Z) : W record :=
  (d <~ w_lift (mk_date target_year target_month day) ;;
   let dow := weekday d in
   let dayf := day_factor dow in
   rev <~ iterrows_rev ;;
   rs <~ draw_with
           (foldM (revenue_step days_in_month target_month season
                                inflation dayf)
                  (0%float, 0%float) rev) ;;
   exp <~ iterrows_exp ;;
   daily_expense <~ draw_with
                      (foldM (expense_step days_in_month season inflation
                                           dayf)
                             0%float exp) ;;
   w_lift (make_record d dow (fst rs) (snd rs) daily_expense))%world.

(** The estimator called on the session's two table objects: it returns
    the reference of the frame it builds. *)
Definition estimate_in_session (target_year target_month : Z)
    (inflation_rate : float) (seasonal_factors : option (gmap Z float))
  : W nat :=
  (mr <~ w_lift (monthrange target_year target_month) ;;
   let days_in_month := snd mr in
   let season := season_factor seasonal_factors target_month in
   let inflation := inflation_factor inflation_rate in
   records <~ mapW (day_in_session target_year target_month days_in_month
                                   season inflation)
                   (seqZ 1 days_in_month) ;;
   df <~ new_frame records ;;
   _ <~ assign_cumulative df ;;
   w_ret df)%world.

(** What pressing the button in [show_daily_report] does: the estimator
    runs on the session's tables and the frame it returns is stored as the
    session's result. *)
Definition run_daily_report (target_year target_month : Z)
    (inflation_rate : float) (seasonal_factors : gmap Z float) : W unit :=
  (df <~ estimate_in_session target_year target_month inflation_rate
                             (Some seasonal_factors) ;;
   store_result df)%world.

(** ** Test doubles and sample inputs *)

(** The generator whose every draw is 1.0. *)
Definition constant_noise : rng :=
  {| draws := fun _ _ _ => 1.0%float; pos := 0 |}.

Definition rev_row (base rate peak : float) : Rev.row :=
  {| Rev.company_id := "R001";
     Rev.company_name := "";
     Rev.monthly_base := Num base;
     Rev.payment_cycle_days := Num 30;
     Rev.shipping_fee_rate := Num rate;
     Rev.seasonal_peak := Num peak |}.

Definition exp_row (base : float) : Exp.row :=
  {| Exp.company_id := "E001";
     Exp.company_name := "";
     Exp.monthly_base := Num base;
     Exp.payment_cycle_days := Num 30;
     Exp.category := "" |}.

(** ** The calendar of the specification *)

(** The standard Gregorian day count: thirty days for April, June,
    September and November, thirty-one for the other months except
    February, which has twenty-nine days in a leap year (a year divisible
    by 4 and not by 100, or divisible by 400) and twenty-eight otherwise. *)
Definition gregorian_leap (y : Z) : bool :=
  if y mod 400 =? 0 then true
  else if y mod 100 =? 0 then false
  else y mod 4 =? 0.

Definition gregorian_days_in_month (y m : Z) : Z :=
  if m =? 2 then (if gregorian_leap y then 29 else 28)
  else if (m =? 4) || (m =? 6) || (m =? 9) || (m =? 11) then 30
  else 31.

Definition sumZ (l : list Z) : Z := foldr Z.add 0 l.

(** ** Auxiliary notions *)

(** [day_sums rev exp dim m season infl dt R S E]: run on the date [dt]
    from some state of the generator, the loop over the revenue table
    returns the accumulations [R] (revenue) and [S] (shipping), and the
    loop over the expense table, run next, returns [E]. *)
Definition day_sums (rev : list Rev.row) (exp : list Exp.row)
    (dim m : Z) (season infl : float) (dt : date) (R S E : float) : Prop :=
  exists g1 g2 g3,
    foldM (revenue_step dim m season infl (day_factor (weekday dt)))
          (0%float, 0%float) rev g1 = (Ok (R, S), g2)
    /\ foldM (expense_step dim season infl (day_factor (weekday dt)))
             0%float exp g2 = (Ok E, g3).

(** The record of a day on which nothing was accumulated. *)
Definition zero_record (y m d : Z) : record :=
  let dt := {| year := y; month := m; day := d |} in
  {| rec_date := dt;
     weekday_label := nth (Z.to_nat (weekday dt)) weekday_labels ""%string;
     estimated_revenue := 0;
     shipping_revenue := 0;
     total_revenue := 0;
     estimated_expense := 0;
     estimated_profit := 0 |}.

(** Rows that agree on every column the estimator reads. *)
Definition rev_same_inputs (a b : Rev.row) : Prop :=
  Rev.company_id a = Rev.company_id b
  /\ Rev.company_name a = Rev.company_name b
  /\ Rev.monthly_base a = Rev.monthly_base b
  /\ Rev.shipping_fee_rate a = Rev.shipping_fee_rate b
  /\ Rev.seasonal_peak a = Rev.seasonal_peak b.

Definition exp_same_inputs (a b : Exp.row) : Prop :=
  Exp.company_id a = Exp.company_id b
  /\ Exp.company_name a = Exp.company_name b
  /\ Exp.monthly_base a = Exp.monthly_base b.

Definition is_nan (x : float) : Prop := Prim2SF x = S754_nan.


(** The rows of an outcome (none when it is an error). *)
Definition rows_of (x : result (list daily_estimate) * rng)
  : list daily_estimate :=
  match fst x with
  | Ok rows => rows
  | Raise _ => []
  end.

(** The example of the specification: one revenue row of 3,000,000 with
    no shipping fee and peak month 1, no expense row, February 2024, no
    inflation, the season table [{2: 0.88}], every noise draw 1.0. *)
Definition february_2024 : result (list daily_estimate) * rng :=
  estimate_daily_settlement [rev_row 3000000 0 1] [] 2024 2 0
    (Some {[ 2 := 0.88%float ]}) constant_noise.

(** January 2024 with season factor 0.4: a revenue row of base 31 whose
    shipping-fee rate is 1, and an expense row of base 31. *)
Definition january_halves : result (list daily_estimate) * rng :=
  estimate_daily_settlement [rev_row 31 1 0] [exp_row 31] 2024 1 0
    (Some {[ 1 := 0.4%float ]}) constant_noise.

(** January 2024 under a season table that has February only. *)
Definition january_no_entry : result (list daily_estimate) * rng :=
  estimate_daily_settlement [rev_row 3100000 0 0] [] 2024 1 0
    (Some {[ 2 := 0.88%float ]}) constant_noise.


(** January 2024 with one revenue row of 1.2e19 and season factor 1. *)
Definition january_huge : result (list daily_estimate) * rng :=
  estimate_daily_settlement [rev_row 1.2e19 0 0] [] 2024 1 0
    (Some {[ 1 := 1.0%float ]}) constant_noise.

(** The revenue row [rev_row 3000000 0 1] paid on a 60-day cycle. *)
Definition rev_row_60 : Rev.row :=
  {| Rev.company_id := "R001";
     Rev.company_name := "";
     Rev.monthly_base := Num 3000000;
     Rev.payment_cycle_days := Num 60;
     Rev.shipping_fee_rate := Num 0;
     Rev.seasonal_peak := Num 1 |}.

(** The expense row [exp_row 31] paid on a 45-day cycle, under another
    category. *)
Definition exp_row_fuel : Exp.row :=
  {| Exp.company_id := "E001";
     Exp.company_name := "";
     Exp.monthly_base := Num 31;
     Exp.payment_cycle_days := Num 45;
     Exp.category := "fuel" |}.

(** ** Further notions *)

(** A cell that holds a number. *)
Definition numeric (c : cell) : Prop :=
  match c with
  | Num _ => True
  | Text _ => False
  end.

(** A float that is one of the two zeros. *)
Definition is_zero (x : float) : Prop :=
  exists s, Prim2SF x = S754_zero s.

(** The generator [g] after [n] more draws. *)
Definition advance (n : nat) (g : rng) : rng :=
  {| draws := draws g; pos := (pos g + n)%nat |}.

(** [g'] is [g] after [n] more draws. *)
Definition advanced (n : nat) (g g' : rng) : Prop :=
  draws g' = draws g /\ pos g' = (pos g + n)%nat.

(** The labels of Monday to Friday, as the report and the dashboard list
    them to select the weekday rows. *)
Definition weekday_names : list string :=
  [ "月"; "火"; "水"; "木"; "金" ]%string.

(** [df[df["曜日"].isin(["月","火","水","木","金"])]] *)
Definition weekday_rows (df : list daily_estimate) : list daily_estimate :=
  filter (fun r => weekday_label (fields r) ∈ weekday_names) df.

(** The label of day [d] of a month whose first day falls on weekday
    [w1]. *)
Definition label_of_day (w1 d : Z) : string :=
  nth (Z.to_nat ((w1 + (d - 1)) mod 7)) weekday_labels ""%string.

(** The revenue row [rev_row 3000000 0 1] with a textual monthly base. *)
Definition rev_row_text : Rev.row :=
  {| Rev.company_id := "R001";
     Rev.company_name := "";
     Rev.monthly_base := Text "n/a";
     Rev.payment_cycle_days := Num 30;
     Rev.shipping_fee_rate := Num 0;
     Rev.seasonal_peak := Num 1 |}.

(** January 2024 with the built-in season table and 2% inflation: no
    revenue row, one expense row of 3,100,000. *)
Definition january_expense_only : result (list daily_estimate) * rng :=
  estimate_daily_settlement [] [exp_row 3100000] 2024 1 2e-2 None
    constant_noise.

(** ** The report's totals and the dashboard's weekly table *)

(** Three amounts: total revenue, estimated expense and estimated
    profit. *)
Record totals : Type := {
  sum_revenue : Z;
  sum_expense : Z;
  sum_profit : Z
}.

(** The three amounts reduced to 64-bit signed integers. *)
Definition wrap_totals (t : totals) : totals :=
  {| sum_revenue := to_dtype int64 (sum_revenue t);
     sum_expense := to_dtype int64 (sum_expense t);
     sum_profit := to_dtype int64 (sum_profit t) |}.

(** The three sums behind the report's monthly figures,
    [df["収入合計"].sum()], [df["推定支出"].sum()] and
    [df["推定損益"].sum()].  The columns of a frame whose amounts fit 64-bit
    signed integers hold such integers, and their sums wrap around modulo
    2^64. *)
Definition monthly_totals (df : list daily_estimate) : totals :=
  wrap_totals
    {| sum_revenue := sumZ (total_revenue ∘ fields <$> df);
       sum_expense := sumZ (estimated_expense ∘ fields <$> df);
       sum_profit := sumZ (estimated_profit ∘ fields <$> df) |}.

(** The ordinal of the Monday that starts ISO week 1 of a year. *)
Definition isoweek1monday (y : Z) : Z :=
  let firstday := toordinal {| year := y; month := 1; day := 1 |} in
  let firstweekday := (firstday + 6) mod 7 in
  let week1monday := firstday - firstweekday in
  if 3 <? firstweekday then week1monday + 7 else week1monday.

(** The ISO 8601 week number of a date, computed as [date.isocalendar]
    does: the weeks start on Monday, week 1 is the week of the year's
    first Thursday, and the days before it or after the last week belong
    to a week of the neighbouring year. *)
Definition iso_week (d : date) : Z :=
  let today := toordinal d in
  let week := (today - isoweek1monday (year d)) / 7 in
  if week <? 0 then (today - isoweek1monday (year d - 1)) / 7 + 1
  else if (52 <=? week) && (isoweek1monday (year d + 1) <=? today) then 1
  else week + 1.

(** One row of the weekly table: the week number and the sums of total
    revenue, estimated expense and estimated profit over its days. *)
Record weekly_row : Type := {
  week : Z;
  week_totals : totals
}.

(** The sums of two triples of amounts, as integers. *)
Definition plus_totals (a b : totals) : totals :=
  {| sum_revenue := sum_revenue a + sum_revenue b;
     sum_expense := sum_expense a + sum_expense b;
     sum_profit := sum_profit a + sum_profit b |}.

(** The sums of two triples of amounts in 64-bit signed integers, as a
    group accumulates them. *)
Definition add_totals (a b : totals) : totals :=
  wrap_totals (plus_totals a b).

(** The amounts of one frame row. *)
Definition row_totals (r : daily_estimate) : totals :=
  {| sum_revenue := total_revenue (fields r);
     sum_expense := estimated_expense (fields r);
     sum_profit := estimated_profit (fields r) |}.

(** Adds amounts to the group of key [k], the groups being kept in
    ascending order of their keys. *)
Fixpoint group_add (k : Z) (v : totals) (l : list weekly_row)
  : list weekly_row :=
  match l with
  | [] => [ {| week := k; week_totals := v |} ]
  | w :: t =>
      if k <? week w then {| week := k; week_totals := v |} :: w :: t
      else if k =? week w
           then {| week := k; week_totals := add_totals (week_totals w) v |}
                  :: t
           else w :: group_add k v t
  end.

(** [groupby(key).agg(sum).reset_index()]: one row per key, in ascending
    order of the keys, with the sums of the three columns. *)
Definition groupby_sum (key : daily_estimate -> Z)
    (df : list daily_estimate) : list weekly_row :=
  foldl (fun acc r => group_add (key r) (row_totals r) acc) [] df.

(** The dashboard's weekly table: the frame grouped by the ISO week of
    the date.  The dates of a stored frame lie in the years the report
    page lets the user enter (2020 to 2030), well inside the range of the
    timestamps the dates are converted to. *)
Definition weekly_summary (df : list daily_estimate) : list weekly_row :=
  groupby_sum (fun r => iso_week (rec_date (fields r))) df.

(** The triples of a list added up as integers. *)
Definition sum_totals (l : list totals) : totals :=
  foldr plus_totals
        {| sum_revenue := 0; sum_expense := 0; sum_profit := 0 |} l.

(** The three amounts of a row fit 64-bit signed integers. *)
Definition amounts_fit (r : daily_estimate) : Prop :=
  fits_int64 (total_revenue (fields r)) = true
  /\ fits_int64 (estimated_expense (fields r)) = true
  /\ fits_int64 (estimated_profit (fields r)) = true.

(** Inserts a key into an ascending list of keys, unless it is there. *)
Fixpoint key_add (k : Z) (l : list Z) : list Z :=
  match l with
  | [] => [k]
  | w :: t =>
      if k <? w then k :: w :: t
      else if k =? w then w :: t
      else w :: key_add k t
  end.

(** The ISO weeks of the days of a month, each once, in ascending order
    of the week numbers. *)
Definition month_weeks (y m : Z) : list Z :=
  foldl (fun a k => key_add k a) []
        ((fun d => iso_week {| year := y; month := m; day := d |})
           <$> seqZ 1 (ndays y m)).

(** January 2021 (whose first day is a Friday) with empty tables. *)
Definition january_2021 : result (list daily_estimate) * rng :=
  estimate_daily_settlement [] [] 2021 1 2e-2 None constant_noise.

(** ** The sample tables *)

(** The integer draws of the process-wide generator, as the builders of
    the sample tables use it: [ints k low high] is what the k-th draw
    returns when asked for an integer from [low] (included) to [high]
    (excluded), and [ipos] counts the draws made so far. *)
Record int_rng : Type := { ints : nat -> Z -> Z -> Z; ipos : nat }.

(** [np.random.randint(low, high)] *)
Definition randint (low high : Z) (s : int_rng) : Z * int_rng :=
  (ints s (ipos s) low high, {| ints := ints s; ipos := S (ipos s) |}).

(** [np.random.choice(a)]: the entry of [a] at an index drawn from 0 to
    the length of [a].  [d] stands for the entry at an index outside the
    list, which a generator that keeps to its bounds never draws. *)
Definition choice {A} (a : list A) (d : A) (s : int_rng) : A * int_rng :=
  let (i, s') := randint 0 (Z.of_nat (length a)) s in
  (nth (Z.to_nat i) a d, s').

(** A generator that keeps to the bounds it is given. *)
Definition keeps_bounds (s : int_rng) : Prop :=
  forall k low high, low < high -> low <= ints s k low high < high.

(** [f"{i:0{width}d}"] for a non-negative [i]: the decimal digits,
    preceded by zeros up to the width. *)
Definition format_d (width : nat) (i : Z) : string :=
  let digits := pretty (Z.to_N i) in
  (String.concat "" (replicate (width - String.length digits) "0")
   ++ digits)%string.

(** A [for] loop over [l] that appends one row per iteration. *)
Fixpoint sample_loop {A} (f : Z -> int_rng -> A * int_rng) (l : list Z)
    (s : int_rng) : list A * int_rng :=
  match l with
  | [] => ([], s)
  | i :: t =>
      let (row, s1) := f i s in
      let (rows, s2) := sample_loop f t s1 in
      (row :: rows, s2)
  end.

Definition sample_revenue_row (i : Z) (s : int_rng) : Rev.row * int_rng :=
  let (n, s1) := randint 50 500 s in
  let (cycle, s2) := choice [30; 45; 60]%float 30%float s1 in
  let (rate, s3) :=
    choice [0.0; 0.0; 0.0; 0.05; 0.07; 0.10]%float 0.0%float s2 in
  let (peak, s4) := choice [3; 6; 7; 8; 12]%float 3%float s3 in
  ({| Rev.company_id := "R" ++ format_d 3 i;
      Rev.company_name := "収入先" ++ format_d 2 i ++ "株式会社";
      Rev.monthly_base := Num (float_of_int (n * 10000));
      Rev.payment_cycle_days := Num cycle;
      Rev.shipping_fee_rate := Num rate;
      Rev.seasonal_peak := Num peak |}, s4).

Definition categories : list string :=
  [ "燃料費"; "人件費"; "車両維持費"; "保険料"; "外注費"; "事務用品";
    "通信費"; "その他" ]%string.

Definition sample_expense_row (i : Z) (s : int_rng) : Exp.row * int_rng :=
  let (n, s1) := randint 20 300 s in
  let (cycle, s2) := choice [30; 45; 60]%float 30%float s1 in
  let (cat, s3) := choice categories "燃料費"%string s2 in
  ({| Exp.company_id := "E" ++ format_d 3 i;
      Exp.company_name := "支払先" ++ format_d 2 i ++ "株式会社";
      Exp.monthly_base := Num (float_of_int (n * 10000));
      Exp.payment_cycle_days := Num cycle;
      Exp.category := cat |}, s3).

(** The two builders seed the generator and then fill fifty rows;
    [seed n] is the state that [np.random.seed(n)] installs. *)
Definition generate_sample_revenue_master (seed : Z -> int_rng)
  : list Rev.row * int_rng :=
  sample_loop sample_revenue_row (seqZ 1 50) (seed 42).

Definition generate_sample_expense_master (seed : Z -> int_rng)
  : list Exp.row * int_rng :=
  sample_loop sample_expense_row (seqZ 1 50) (seed 123).

(** A seeding whose draws are all the lower bound. *)
Definition low_seed (n : Z) : int_rng :=
  {| ints := fun _ low _ => low; ipos := 0 |}.

(** What the builder of the revenue sample writes in a row: a monthly
    base of 10000 times an integer from 50 to 499, and a payment cycle, a
    shipping-fee rate and a peak month taken from the three lists. *)
Definition sample_revenue_values (c : Rev.row) : Prop :=
  (exists n, 50 <= n < 500
             /\ Rev.monthly_base c = Num (float_of_int (n * 10000)))
  /\ Rev.payment_cycle_days c ∈ Num <$> [30; 45; 60]%float
  /\ Rev.shipping_fee_rate c
     ∈ Num <$> [0.0; 0.0; 0.0; 0.05; 0.07; 0.10]%float
  /\ Rev.seasonal_peak c ∈ Num <$> [3; 6; 7; 8; 12]%float.

(** What the builder of the expense sample writes in a row. *)
Definition sample_expense_values (c : Exp.row) : Prop :=
  (exists n, 20 <= n < 300
             /\ Exp.monthly_base c = Num (float_of_int (n * 10000)))
  /\ Exp.payment_cycle_days c ∈ Num <$> [30; 45; 60]%float
  /\ Exp.category c ∈ categories.

(** ** Generators that agree on a window of draws *)

(** [g] and [h] are at the same position and return the same draws for
    the next [n] calls. *)
Definition same_window (n : nat) (g h : rng) : Prop :=
  pos g = pos h
  /\ forall k loc scale, (pos g <= k < pos g + n)%nat ->
       draws g k loc scale = draws h k loc scale.

(** Two runs ended alike: with the same error, or with the same value and
    generators that still agree on the next [n] draws. *)
Definition ended_alike {A} (n : nat) (a b : result A * rng) : Prop :=
  match a, b with
  | (Ok x, g'), (Ok y, h') => x = y /\ same_window n g' h'
  | (Raise e, _), (Raise e', _) => e = e'
  | _, _ => False
  end.

(** A computation that reads at most the next [k] draws. *)
Definition reads {A} (k : nat) (c : M A) : Prop :=
  forall n g h, same_window (k + n) g h -> ended_alike n (c g) (c h).

(** The generator that returns 1.0 for its first hundred draws and 2.0
    afterwards. *)
Definition hundred_ones : rng :=
  {| draws := fun k _ _ => if (k <? 100)%nat then 1.0%float else 2.0%float;
     pos := 0 |}.

(** ** What the estimator reads from a row *)

(** Two revenue rows with the same monthly base and shipping-fee rate,
    whose peak months both are, or both are not, the month [m]. *)
Definition rev_alike (m : Z) (a b : Rev.row) : Prop :=
  Rev.monthly_base a = Rev.monthly_base b
  /\ Rev.shipping_fee_rate a = Rev.shipping_fee_rate b
  /\ cell_eq_int (Rev.seasonal_peak a) m
     = cell_eq_int (Rev.seasonal_peak b) m.

(** Two expense rows with the same monthly base. *)
Definition exp_alike (a b : Exp.row) : Prop :=
  Exp.monthly_base a = Exp.monthly_base b.

(** The revenue row [rev_row 3000000 0 1] under another identifier and
    name, with peak month 7. *)
Definition rev_row_renamed : Rev.row :=
  {| Rev.company_id := "R999";
     Rev.company_name := "renamed";
     Rev.monthly_base := Num 3000000;
     Rev.payment_cycle_days := Num 30;
     Rev.shipping_fee_rate := Num 0;
     Rev.seasonal_peak := Num 7 |}.

(** * Properties *)

(** ** The monad *)

Lemma bind_ok {A B} (c : M A) (k : A -> M B) g b g' :
  bind c k g = (Ok b, g') ->
  exists a g1, c g = (Ok a, g1) /\ k a g1 = (Ok b, g').
Proof.
  unfold bind. destruct (c g) as [[a|e] g1]; intros H.
  - exists a, g1. split; [reflexivity | exact H].
  - discriminate.
Qed.

Lemma bind_raise {A B} (c : M A) (k : A -> M B) g e g' :
  c g = (Raise e, g') -> bind c k g = (Raise e, g').
Proof. unfold bind. intros ->. reflexivity. Qed.

Lemma bind_step {A B} (c : M A) (k : A -> M B) g a g1 :
  c g = (Ok a, g1) -> bind c k g = k a g1.
Proof. unfold bind. intros ->. reflexivity. Qed.

Lemma lift_ok {A} (r : result A) g a g' :
  lift r g = (Ok a, g') -> r = Ok a /\ g' = g.
Proof. unfold lift. intros H. inversion H. auto. Qed.

Lemma ret_ok {A} (x : A) g a g' :
  ret x g = (Ok a, g') -> a = x /\ g' = g.
Proof. unfold ret. intros H. inversion H. auto. Qed.

(** Inversion of a successful run, one [bind] at a time. *)
Ltac inv_ok H :=
  lazymatch type of H with
  | bind _ _ _ = (Ok _, _) =>
      let a := fresh "a" in
      let g1 := fresh "g" in
      let H1 := fresh "Hc" in
      let H2 := fresh "Hk" in
      apply bind_ok in H; destruct H as (a & g1 & H1 & H2);
      inv_ok H1; inv_ok H2
  | lift _ _ = (Ok _, _) =>
      let E := fresh "E" in
      apply lift_ok in H; destruct H as [H E]; subst
  | ret _ _ = (Ok _, _) =>
      let E := fresh "E" in
      apply ret_ok in H; destruct H as [H E]; subst
  | _ => idtac
  end.

Lemma mapM_ok {A B} (f : A -> M B) l g ys g' :
  mapM f l g = (Ok ys, g') ->
  Forall2 (fun x y => exists g1 g2, f x g1 = (Ok y, g2)) l ys.
Proof.
  revert g ys g'. induction l as [|x t IH]; simpl; intros g ys g' H.
  - inv_ok H. constructor.
  - inv_ok H. constructor; eauto.
Qed.

Lemma mapM_ext {A B} (f f' : A -> M B) l :
  (forall x g, f x g = f' x g) -> forall g, mapM f l g = mapM f' l g.
Proof.
  intros E. induction l as [|x t IH]; simpl; intros g; [reflexivity|].
  unfold bind. rewrite E. destruct (f' x g) as [[y|e] g1]; [|reflexivity].
  rewrite IH. reflexivity.
Qed.

Lemma mapM_head_raise {A B} (f : A -> M B) x t g e g' :
  f x g = (Raise e, g') -> mapM f (x :: t) g = (Raise e, g').
Proof. intros H. simpl. apply bind_raise. exact H. Qed.

Lemma foldM_rel {A B B'} (R : B -> B' -> Prop) (f : A -> B -> M A)
    (f' : A -> B' -> M A) l l' :
  (forall acc x y g, R x y -> f acc x g = f' acc y g) ->
  Forall2 R l l' ->
  forall acc g, foldM f acc l g = foldM f' acc l' g.
Proof.
  intros E HF. induction HF as [|x y t t' Hxy _ IH]; simpl; intros acc g.
  - reflexivity.
  - unfold bind. rewrite (E acc x y g Hxy).
    destruct (f' acc y g) as [[a|e] g1]; [apply IH | reflexivity].
Qed.

(** ** The calendar *)

Ltac month_cases m :=
  let H := fresh "Hm" in
  assert (H : m = 1 \/ m = 2 \/ m = 3 \/ m = 4 \/ m = 5 \/ m = 6 \/ m = 7
              \/ m = 8 \/ m = 9 \/ m = 10 \/ m = 11 \/ m = 12) by lia;
  repeat (destruct H as [H | H]); subst m.

Lemma isleap_gregorian y : isleap y = gregorian_leap y.
Proof.
  unfold isleap, gregorian_leap.
  destruct (Z.eqb_spec (y mod 400) 0) as [H400|H400];
    destruct (Z.eqb_spec (y mod 100) 0) as [H100|H100];
    destruct (Z.eqb_spec (y mod 4) 0) as [H4|H4];
    simpl; try reflexivity; exfalso;
    revert H400 H100 H4; Z.div_mod_to_equations; lia.
Qed.

Lemma ndays_gregorian y m :
  1 <= m <= 12 -> ndays y m = gregorian_days_in_month y m.
Proof.
  intros Hv. unfold ndays, gregorian_days_in_month.
  rewrite isleap_gregorian.
  month_cases m; simpl; try reflexivity.
  destruct (gregorian_leap y); reflexivity.
Qed.

Lemma ndays_lower y m : 1 <= m <= 12 -> 28 <= ndays y m.
Proof.
  intros Hv. unfold ndays.
  month_cases m; simpl; try lia.
  destruct (isleap y); lia.
Qed.

Lemma mk_date_ok y m d dt :
  mk_date y m d = Ok dt ->
  dt = {| year := y; month := m; day := d |}
  /\ MINYEAR <= y <= MAXYEAR /\ 1 <= m <= 12 /\ 1 <= d <= ndays y m.
Proof.
  unfold mk_date.
  destruct (fits_c_int y && fits_c_int m && fits_c_int d); [|discriminate].
  destruct (Z.leb_spec MINYEAR y), (Z.leb_spec y MAXYEAR),
    (Z.leb_spec 1 m), (Z.leb_spec m 12),
    (Z.leb_spec 1 d), (Z.leb_spec d (ndays y m));
    simpl; intros Hok; inversion Hok; repeat split; assumption.
Qed.

Lemma ndays_upper y m : ndays y m <= 32.
Proof.
  unfold ndays, mdays.
  destruct ((m =? 2) && isleap y);
    repeat (match goal with |- context [match ?x with _ => _ end] =>
                              destruct x end); lia.
Qed.

Lemma fits_c_int_small z : -2147483648 <= z < 2147483648 -> fits_c_int z = true.
Proof.
  intros H. unfold fits_c_int.
  apply andb_true_intro. split; [apply Z.leb_le | apply Z.ltb_lt]; lia.
Qed.

Lemma mk_date_valid y m d :
  MINYEAR <= y <= MAXYEAR -> 1 <= m <= 12 -> 1 <= d <= ndays y m ->
  mk_date y m d = Ok {| year := y; month := m; day := d |}.
Proof.
  intros Hy Hm Hd. unfold mk_date.
  pose proof (ndays_upper y m) as Hn.
  unfold MINYEAR, MAXYEAR in *.
  rewrite !fits_c_int_small by lia. simpl.
  rewrite !andb_true_intro; [reflexivity | ..]; try split;
    repeat (apply andb_true_intro; split); apply Z.leb_le; lia.
Qed.

Lemma mk_date_bad_year y m :
  1 <= m <= 12 -> ~ (MINYEAR <= y <= MAXYEAR) ->
  mk_date y m 1
  = Raise (if fits_c_int y then ValueError else OverflowError).
Proof.
  intros Hm Hy. unfold mk_date.
  rewrite (fits_c_int_small m), (fits_c_int_small 1) by lia.
  rewrite !andb_true_r.
  destruct (fits_c_int y); [|reflexivity].
  destruct (Z.leb_spec MINYEAR y), (Z.leb_spec y MAXYEAR);
    simpl; try reflexivity; lia.
Qed.

Lemma monthrange_valid y m :
  1 <= m <= 12 -> exists day1, monthrange y m = Ok (day1, ndays y m).
Proof.
  intros Hm. unfold monthrange, calendar_weekday.
  replace ((1 <=? m) && (m <=? 12)) with true
    by (symmetry; apply andb_true_intro; split; apply Z.leb_le; lia).
  set (y' := if (MINYEAR <=? y) && (y <=? MAXYEAR) then y
             else 2000 + y mod 400).
  assert (Hy' : MINYEAR <= y' <= MAXYEAR).
  { subst y'. unfold MINYEAR, MAXYEAR.
    destruct (Z.leb_spec 1 y), (Z.leb_spec y 9999); simpl;
      try lia; pose proof (Z.mod_pos_bound y 400); lia. }
  rewrite (mk_date_valid y' m 1 Hy' Hm).
  - eexists. reflexivity.
  - pose proof (ndays_lower y' m Hm). lia.
Qed.

Lemma monthrange_invalid y m :
  ~ (1 <= m <= 12) -> monthrange y m = Raise IllegalMonthError.
Proof.
  intros Hm. unfold monthrange.
  destruct (Z.leb_spec 1 m), (Z.leb_spec m 12); simpl; try reflexivity; lia.
Qed.

(** ** Records and the cumulative column *)

Lemma make_record_ok d dow R S E r :
  make_record d dow R S E = Ok r ->
  rec_date r = d
  /\ py_round R = Ok (estimated_revenue r)
  /\ py_round S = Ok (shipping_revenue r)
  /\ py_round (R + S)%float = Ok (total_revenue r)
  /\ py_round E = Ok (estimated_expense r)
  /\ py_round (R + S - E)%float = Ok (estimated_profit r).
Proof.
  unfold make_record.
  destruct (py_round R); [|discriminate].
  destruct (py_round S); [|discriminate].
  destruct (py_round (R + S)%float); [|discriminate].
  destruct (py_round E); [|discriminate].
  destruct (py_round (R + S - E)%float); [|discriminate].
  intros H. inversion H. simpl. repeat split; reflexivity.
Qed.

Lemma day_record_ok rev exp y m dim season infl d g r g' :
  day_record rev exp y m dim season infl d g = (Ok r, g') ->
  exists R S E,
    day_sums rev exp dim m season infl
             {| year := y; month := m; day := d |} R S E
    /\ make_record {| year := y; month := m; day := d |}
         (weekday {| year := y; month := m; day := d |}) R S E = Ok r.
Proof.
  unfold day_record. intros H. inv_ok H.
  apply mk_date_ok in Hc. destruct Hc as (-> & _).
  destruct a0 as [R S]. exists R, S, a1. split; [|exact Hk].
  exists g, g0, g1. split; assumption.
Qed.

Lemma length_cumsum_from t acc l : length (cumsum_from t acc l) = length l.
Proof.
  revert acc. induction l as [|x tl IH]; simpl; intros acc;
    [reflexivity | rewrite IH; reflexivity].
Qed.

Lemma to_dtype_add t a b : to_dtype t (to_dtype t a + b) = to_dtype t (a + b).
Proof.
  destruct t; simpl; [| |reflexivity].
  - f_equal.
    replace ((a + 2 ^ 63) mod 2 ^ 64 - 2 ^ 63 + b + 2 ^ 63)
      with ((a + 2 ^ 63) mod 2 ^ 64 + b) by lia.
    rewrite Zplus_mod_idemp_l. f_equal. lia.
  - apply Zplus_mod_idemp_l.
Qed.

Lemma cumsum_from_lookup t acc l i c :
  cumsum_from t acc l !! i = Some c ->
  c = to_dtype t (acc + sumZ (take (S i) l)).
Proof.
  revert acc i. induction l as [|x tl IH]; intros acc i H; [discriminate|].
  destruct i as [|i]; simpl in H.
  - inversion H. simpl. destruct tl; simpl; f_equal; lia.
  - apply IH in H. rewrite H, to_dtype_add. simpl. f_equal. lia.
Qed.

Lemma length_with_cumulative rs : length (with_cumulative rs) = length rs.
Proof.
  unfold with_cumulative, cumsum.
  rewrite length_zip_with, length_cumsum_from, length_fmap. lia.
Qed.

Lemma with_cumulative_lookup rs i r :
  with_cumulative rs !! i = Some r ->
  rs !! i = Some (fields r)
  /\ cumulative_profit r
     = to_dtype (infer_dtype (estimated_profit <$> rs))
                (sumZ (estimated_profit <$> take (S i) rs)).
Proof.
  unfold with_cumulative, cumsum. intros H.
  apply lookup_zip_with_Some in H.
  destruct H as (x & c & -> & Hx & Hc). simpl. split; [exact Hx|].
  apply cumsum_from_lookup in Hc. rewrite fmap_take. exact Hc.
Qed.

Lemma fields_with_cumulative rs : fields <$> with_cumulative rs = rs.
Proof.
  apply list_eq. intros i. rewrite list_lookup_fmap.
  destruct (with_cumulative rs !! i) as [r|] eqn:E; simpl.
  - apply with_cumulative_lookup in E. symmetry. apply E.
  - apply lookup_ge_None in E. rewrite length_with_cumulative in E.
    symmetry. apply lookup_ge_None. exact E.
Qed.

(** A successful run of the estimator, taken apart. *)
Lemma estimate_ok rev exp y m infl sfs g rows g' :
  estimate_daily_settlement rev exp y m infl sfs g = (Ok rows, g') ->
  exists records,
    rows = with_cumulative records
    /\ 1 <= m <= 12
    /\ Forall2 (fun d r => exists R S E,
                  day_sums rev exp (ndays y m) m (season_factor sfs m)
                    (inflation_factor infl)
                    {| year := y; month := m; day := d |} R S E
                  /\ make_record {| year := y; month := m; day := d |}
                       (weekday {| year := y; month := m; day := d |}) R S E
                     = Ok r)
               (seqZ 1 (ndays y m)) records.
Proof.
  unfold estimate_daily_settlement. intros H. inv_ok H.
  exists a0. split; [reflexivity|].
  assert (Hm : 1 <= m <= 12).
  { destruct (Z.leb_spec 1 m), (Z.leb_spec m 12); try lia;
      rewrite monthrange_invalid in Hc by lia; discriminate. }
  split; [exact Hm|].
  destruct (monthrange_valid y m Hm) as [d1 E]. rewrite E in Hc.
  inversion Hc; subst a. simpl in Hc0.
  apply mapM_ok in Hc0.
  eapply Forall2_impl; [exact Hc0|].
  intros d r (g1 & g2 & Hd). simpl in Hd.
  eapply day_record_ok. exact Hd.
Qed.

Lemma estimate_ok_dates rev exp y m infl sfs g rows g' :
  estimate_daily_settlement rev exp y m infl sfs g = (Ok rows, g') ->
  length rows = Z.to_nat (ndays y m)
  /\ forall i r, rows !! i = Some r ->
       rec_date (fields r)
       = {| year := y; month := m; day := 1 + Z.of_nat i |}.
Proof.
  intros H. apply estimate_ok in H.
  destruct H as (records & -> & Hm & HF).
  split.
  - rewrite length_with_cumulative.
    rewrite <- (Forall2_length _ _ _ HF). apply length_seqZ.
  - intros i r Hr. apply with_cumulative_lookup in Hr.
    destruct Hr as [Hr _].
    destruct (Forall2_lookup_r _ _ _ _ _ HF Hr)
      as (d & Hd & R & S & E & _ & Hmk).
    apply lookup_seqZ in Hd. destruct Hd as [-> _].
    apply make_record_ok in Hmk. destruct Hmk as [-> _]. reflexivity.
Qed.

Lemma last_lookup_pred {A} (l : list A) x :
  last l = Some x -> l !! pred (length l) = Some x.
Proof. rewrite last_lookup. auto. Qed.

(** * The claims *)

(** C5. For a valid year and month and any tables, the frame the estimator
    returns has exactly as many rows as the month has days in the
    Gregorian calendar; the row at position [i] carries the date of day
    [i + 1] of that month, so the dates ascend without gap or duplicate;
    the first row is day 1 and the last row is the month's last day. *)
Theorem output_covers_the_month rev exp y m infl sfs g rows g' :
  1 <= m <= 12 -> MINYEAR <= y <= MAXYEAR ->
  estimate_daily_settlement rev exp y m infl sfs g = (Ok rows, g') ->
  length rows = Z.to_nat (gregorian_days_in_month y m)
  /\ (forall i r, rows !! i = Some r ->
        rec_date (fields r)
        = {| year := y; month := m; day := 1 + Z.of_nat i |})
  /\ (exists r, head rows = Some r
        /\ rec_date (fields r) = {| year := y; month := m; day := 1 |})
  /\ (exists r, last rows = Some r
        /\ rec_date (fields r)
           = {| year := y; month := m;
                day := gregorian_days_in_month y m |}).
Proof.
  intros Hm Hy H. apply estimate_ok_dates in H. destruct H as [Hlen Hdate].
  rewrite <- ndays_gregorian by exact Hm.
  pose proof (ndays_lower y m Hm) as Hn.
  split; [exact Hlen|]. split; [exact Hdate|].
  destruct rows as [|r0 rows0] eqn:Erows; [simpl in Hlen; lia|].
  rewrite <- Erows in *. split.
  - exists r0. rewrite Erows. split; [reflexivity|].
    apply (Hdate 0%nat). rewrite Erows. reflexivity.
  - destruct (last rows) as [r|] eqn:El.
    + exists r. split; [reflexivity|].
      apply last_lookup_pred in El. rewrite (Hdate _ _ El).
      f_equal. lia.
    + apply last_None in El. rewrite El in Erows. discriminate.
Qed.

Ltac pow64 :=
  change (2 ^ 63) with 9223372036854775808 in *;
  change (2 ^ 64) with 18446744073709551616 in *.

Lemma fits_int64_range z :
  fits_int64 z = true -> - 9223372036854775808 <= z < 9223372036854775808.
Proof.
  unfold fits_int64. intros H. apply andb_prop in H. destruct H as [H1 H2].
  apply Z.leb_le in H1. apply Z.ltb_lt in H2. pow64. lia.
Qed.

Lemma to_dtype_int64_fits z : fits_int64 z = true -> to_dtype int64 z = z.
Proof.
  intros H. apply fits_int64_range in H. unfold to_dtype. pow64.
  rewrite Z.mod_small; lia.
Qed.

Lemma sumZ_nonneg l :
  forallb fits_uint64 l = true -> forall n, 0 <= sumZ (take n l).
Proof.
  induction l as [|x t IH]; intros H n.
  - rewrite take_nil. simpl. lia.
  - simpl in H. apply andb_prop in H. destruct H as [Hx Ht].
    destruct n as [|n]; simpl; [lia|].
    specialize (IH Ht n). unfold fits_uint64 in Hx.
    apply andb_prop in Hx. destruct Hx as [Hx _]. apply Z.leb_le in Hx.
    lia.
Qed.

Lemma to_dtype_prefix_fits l n :
  fits_int64 (sumZ (take n l)) = true ->
  to_dtype (infer_dtype l) (sumZ (take n l)) = sumZ (take n l).
Proof.
  intros Hfit. unfold infer_dtype.
  destruct (forallb fits_int64 l); [apply to_dtype_int64_fits; exact Hfit|].
  destruct (forallb fits_uint64 l) eqn:Hu; [|reflexivity].
  pose proof (sumZ_nonneg l Hu n) as Hn.
  apply fits_int64_range in Hfit.
  unfold to_dtype. pow64. apply Z.mod_small. lia.
Qed.

(** C6, as the code has it. In every frame the estimator returns, the
    cumulative profit of a row is the sum of the estimated profits of the
    rows up to and including it whenever this running sum fits a signed
    64-bit integer; when the profits all fit 64 bits but the running sum
    does not, it is the running sum wrapped around modulo 2^64.  In
    particular the last row's cumulative profit is the sum of the
    estimated profits of the whole frame when this sum fits. *)
Theorem cumulative_profit_is_running_sum rev exp y m infl sfs g rows g' :
  estimate_daily_settlement rev exp y m infl sfs g = (Ok rows, g') ->
  let profits := estimated_profit ∘ fields <$> rows in
  (forall i r, rows !! i = Some r ->
     (fits_int64 (sumZ (take (S i) profits)) = true ->
      cumulative_profit r = sumZ (take (S i) profits))
     /\ (forallb fits_int64 profits = true ->
         cumulative_profit r
         = (sumZ (take (S i) profits) + 2 ^ 63) mod 2 ^ 64 - 2 ^ 63))
  /\ (forall r, last rows = Some r ->
        fits_int64 (sumZ profits) = true ->
        cumulative_profit r = sumZ profits).
Proof.
  intros H profits. apply estimate_ok in H.
  destruct H as (records & Hrows & _).
  assert (Hrec : estimated_profit <$> records = profits).
  { unfold profits. rewrite list_fmap_compose.
    rewrite Hrows, fields_with_cumulative. reflexivity. }
  assert (Hrun : forall i r, rows !! i = Some r ->
            cumulative_profit r
            = to_dtype (infer_dtype profits) (sumZ (take (S i) profits))).
  { intros i r Hr. rewrite Hrows in Hr.
    apply with_cumulative_lookup in Hr. destruct Hr as [_ ->].
    rewrite fmap_take, Hrec. reflexivity. }
  split.
  - intros i r Hr. rewrite (Hrun _ _ Hr). split.
    + apply to_dtype_prefix_fits.
    + intros Hall. unfold infer_dtype. rewrite Hall. reflexivity.
  - intros r Hl Hfit. apply last_lookup_pred in Hl.
    rewrite (Hrun _ _ Hl).
    assert (Hall : take (S (pred (length rows))) profits = profits).
    { apply firstn_all2. unfold profits. rewrite length_fmap. lia. }
    rewrite <- Hall in Hfit. rewrite (to_dtype_prefix_fits _ _ Hfit).
    rewrite Hall. reflexivity.
Qed.

(** C4, as the code has it. When the month is outside 1..12 or the year
    is outside 1..9999, the estimator raises and returns no frame; nothing
    has been drawn from the generator, so no row was being produced.  The
    error is [IllegalMonthError] (a [ValueError]) for the month; for a
    month in 1..12 it is the [ValueError] of the first date when the year
    fits a C integer, and [OverflowError] when it does not. *)
Theorem invalid_month_or_year_raises rev exp y m infl sfs g :
  ~ (1 <= m <= 12) \/ ~ (MINYEAR <= y <= MAXYEAR) ->
  estimate_daily_settlement rev exp y m infl sfs g
  = (Raise (if (1 <=? m) && (m <=? 12)
            then if fits_c_int y then ValueError else OverflowError
            else IllegalMonthError), g).
Proof.
  intros Hbad.
  destruct (decide (1 <= m <= 12)) as [Hm|Hm].
  - destruct Hbad as [Hbad|Hy]; [contradiction|].
    replace ((1 <=? m) && (m <=? 12)) with true
      by (symmetry; apply andb_true_intro; split; apply Z.leb_le; lia).
    unfold estimate_daily_settlement.
    destruct (monthrange_valid y m Hm) as [d1 E].
    rewrite (bind_step _ _ g (d1, ndays y m) g)
      by (unfold lift; rewrite E; reflexivity).
    simpl. apply bind_raise.
    pose proof (ndays_lower y m Hm) as Hn.
    rewrite seqZ_cons by lia.
    apply mapM_head_raise. unfold day_record.
    apply bind_raise. unfold lift.
    rewrite mk_date_bad_year by assumption. reflexivity.
  - replace ((1 <=? m) && (m <=? 12)) with false
      by (symmetry; destruct (Z.leb_spec 1 m), (Z.leb_spec m 12);
          simpl; try reflexivity; lia).
    unfold estimate_daily_settlement.
    apply bind_raise. unfold lift.
    rewrite monthrange_invalid by exact Hm. reflexivity.
Qed.

Lemma day_record_empty y m dim season infl d g :
  MINYEAR <= y <= MAXYEAR -> 1 <= m <= 12 -> 1 <= d <= ndays y m ->
  day_record [] [] y m dim season infl d g = (Ok (zero_record y m d), g).
Proof.
  intros Hy Hm Hd. unfold day_record.
  rewrite (bind_step _ _ g {| year := y; month := m; day := d |} g)
    by (unfold lift; rewrite mk_date_valid by assumption; reflexivity).
  reflexivity.
Qed.

Lemma mapM_pure {A B} (f : A -> M B) (h : A -> B) l g :
  Forall (fun x => f x g = (Ok (h x), g)) l ->
  mapM f l g = (Ok (h <$> l), g).
Proof.
  induction 1 as [|x t Hx _ IH]; simpl; [reflexivity|].
  rewrite (bind_step _ _ g (h x) g Hx).
  rewrite (bind_step _ _ g (h <$> t) g IH). reflexivity.
Qed.

(** C7. For a valid year and month, the estimator run on an empty revenue
    table and an empty expense table raises no error: it returns a frame
    with one row per day of the month, and the estimated revenue, the
    estimated expense and the estimated profit of every row are 0. *)
Theorem empty_tables_all_zero y m infl sfs g :
  1 <= m <= 12 -> MINYEAR <= y <= MAXYEAR ->
  exists rows,
    estimate_daily_settlement [] [] y m infl sfs g = (Ok rows, g)
    /\ length rows = Z.to_nat (gregorian_days_in_month y m)
    /\ Forall (fun r => estimated_revenue (fields r) = 0
                        /\ estimated_expense (fields r) = 0
                        /\ estimated_profit (fields r) = 0) rows.
Proof.
  intros Hm Hy.
  set (records := zero_record y m <$> seqZ 1 (ndays y m)).
  assert (Hrun : estimate_daily_settlement [] [] y m infl sfs g
                 = (Ok (with_cumulative records), g)).
  { unfold estimate_daily_settlement.
    destruct (monthrange_valid y m Hm) as [d1 E].
    rewrite (bind_step _ _ g (d1, ndays y m) g)
      by (unfold lift; rewrite E; reflexivity).
    simpl.
    rewrite (bind_step _ _ g records g); [reflexivity|].
    apply mapM_pure. apply Forall_forall. intros d Hd.
    apply elem_of_seqZ in Hd.
    apply day_record_empty; [assumption .. | lia]. }
  exists (with_cumulative records). split; [exact Hrun|].
  split.
  - rewrite <- ndays_gregorian by exact Hm.
    apply estimate_ok_dates in Hrun. apply Hrun.
  - apply Forall_forall. intros r Hr.
    assert (Hf : fields r ∈ records).
    { rewrite <- (fields_with_cumulative records).
      apply list_elem_of_fmap_2. exact Hr. }
    apply list_elem_of_fmap in Hf. destruct Hf as (d & -> & _).
    simpl. auto.
Qed.

Lemma revenue_step_same dim tm s i df acc a b g :
  rev_same_inputs a b ->
  revenue_step dim tm s i df acc a g = revenue_step dim tm s i df acc b g.
Proof.
  intros (_ & _ & Hb & Hr & Hp).
  unfold revenue_step, peak_bonus. rewrite Hb, Hr, Hp. reflexivity.
Qed.

Lemma expense_step_same dim s i df acc a b g :
  exp_same_inputs a b ->
  expense_step dim s i df acc a g = expense_step dim s i df acc b g.
Proof.
  intros (_ & _ & Hb). unfold expense_step. rewrite Hb. reflexivity.
Qed.

Lemma day_record_same rev rev' exp exp' y m dim s i d g :
  Forall2 rev_same_inputs rev rev' -> Forall2 exp_same_inputs exp exp' ->
  day_record rev exp y m dim s i d g = day_record rev' exp' y m dim s i d g.
Proof.
  intros Hr He. unfold day_record, bind.
  destruct (lift (mk_date y m d) g) as [[dt|e] g1]; [|reflexivity].
  rewrite (foldM_rel rev_same_inputs _
             (revenue_step dim m s i (day_factor (weekday dt))) rev rev')
    by (try exact Hr; intros; apply revenue_step_same; assumption).
  destruct (foldM _ _ rev' g1) as [[rs|e] g2]; [|reflexivity].
  rewrite (foldM_rel exp_same_inputs _
             (expense_step dim s i (day_factor (weekday dt))) exp exp')
    by (try exact He; intros; apply expense_step_same; assumption).
  reflexivity.
Qed.

(** C9. Two runs of the estimator from the same generator, on tables that
    agree row by row except for the payment-cycle column (either table)
    and the category column (expense table), give the same outcome: the
    same frame or the same error, and the same generator afterwards. *)
Theorem informational_columns_ignored
    rev rev' exp exp' y m infl sfs g :
  Forall2 rev_same_inputs rev rev' ->
  Forall2 exp_same_inputs exp exp' ->
  estimate_daily_settlement rev exp y m infl sfs g
  = estimate_daily_settlement rev' exp' y m infl sfs g.
Proof.
  intros Hr He. unfold estimate_daily_settlement, bind.
  destruct (lift (monthrange y m) g) as [[mr|e] g1]; [|reflexivity].
  rewrite (mapM_ext _ (day_record rev' exp' y m mr.2 (season_factor sfs m)
                                  (inflation_factor infl)))
    by (intros; apply day_record_same; assumption).
  reflexivity.
Qed.

(** ** The season factor *)

Lemma estimate_season rev exp y m infl sfs sfs' g :
  season_factor sfs m = season_factor sfs' m ->
  estimate_daily_settlement rev exp y m infl sfs g
  = estimate_daily_settlement rev exp y m infl sfs' g.
Proof.
  intros E. unfold estimate_daily_settlement. rewrite E. reflexivity.
Qed.

(** C2, as the code has it. When the caller's mapping has no entry for the
    target month, the season factor is the constant 1.0, and the estimator
    behaves as if the mapping gave 1.0 for that month. *)
Theorem omitted_month_uses_one (t : gmap Z float) m :
  t !! m = None ->
  season_factor (Some t) m = 1.0%float
  /\ forall rev exp y infl g,
       estimate_daily_settlement rev exp y m infl (Some t) g
       = estimate_daily_settlement rev exp y m infl
           (Some (<[ m := 1.0%float ]> t)) g.
Proof.
  intros Hm.
  assert (E : season_factor (Some t) m = 1.0%float).
  { unfold season_factor. simpl. rewrite Hm. reflexivity. }
  split; [exact E|].
  intros. apply estimate_season. rewrite E.
  unfold season_factor. simpl. rewrite lookup_insert_eq. reflexivity.
Qed.

(** ** Malformed rows *)





Lemma py_round_nan x : is_nan x -> py_round x = Raise ValueError.
Proof. unfold is_nan, py_round. intros ->. reflexivity. Qed.







(** ** Concrete runs *)

Lemma february_2024_ok :
  february_2024 = (Ok (rows_of february_2024), snd february_2024).
Proof. vm_compute. reflexivity. Qed.

Lemma january_halves_ok :
  january_halves = (Ok (rows_of january_halves), snd january_halves).
Proof. vm_compute. reflexivity. Qed.

(** C1, counterexample. On Monday 1 January 2024 the run [january_halves]
    accumulates 0.4 of revenue, 0.4 of shipping and 0.4 of expense: the
    rounded fields are 0, 0, 1 (total), 0 and 0 (profit), so the total is
    not the sum of its two parts and the profit is not the total minus the
    expense. *)
Lemma rounded_identities_counterexample :
  exists r,
    rows_of january_halves !! 0%nat = Some r
    /\ january_halves = (Ok (rows_of january_halves), snd january_halves)
    /\ total_revenue (fields r)
       <> estimated_revenue (fields r) + shipping_revenue (fields r)
    /\ estimated_profit (fields r)
       <> total_revenue (fields r) - estimated_expense (fields r).
Proof.
  eexists. split; [vm_compute; reflexivity|].
  split; [exact january_halves_ok|].
  split; vm_compute; discriminate.
Qed.

(** C2, counterexample. The table [{2: 0.88}] has no entry for January and
    the built-in table gives 0.85 for January, yet the season factor used
    for January is 1.0: the first row's estimated revenue is 100000, where
    the built-in factor would give 85000. *)
Lemma omitted_month_counterexample :
  ({[ 2 := 0.88%float ]} : gmap Z float) !! 1 = None
  /\ default_seasonal_factors !! 1 = Some 0.85%float
  /\ Prim2SF (season_factor (Some {[ 2 := 0.88%float ]}) 1)
     <> Prim2SF 0.85%float
  /\ exists r,
       rows_of january_no_entry !! 0%nat = Some r
       /\ january_no_entry
          = (Ok (rows_of january_no_entry), snd january_no_entry)
       /\ estimated_revenue (fields r) = 100000
       /\ py_round (3100000 / 31 * 0.85 * 1 * 1 * 1 * 1)%float = Ok 85000.
Proof.
  split; [vm_compute; reflexivity|].
  split; [vm_compute; reflexivity|].
  split; [vm_compute; discriminate|].
  eexists. split; [vm_compute; reflexivity|].
  repeat split; vm_compute; reflexivity.
Qed.

(** C3, counterexample. In the run [february_2024] the first row is a
    weekday (Thursday 1 February) and its estimated revenue is 91034, not
    [round(3000000/29 * 0.88 * 1 * 1 * 1.2)], which is 109241. *)
Lemma february_example_counterexample :
  exists r,
    rows_of february_2024 !! 0%nat = Some r
    /\ february_2024 = (Ok (rows_of february_2024), snd february_2024)
    /\ weekday (rec_date (fields r)) < 5
    /\ py_round (3000000 / 29 * 0.88 * 1 * 1 * 1.2)%float = Ok 109241
    /\ estimated_revenue (fields r) <> 109241.
Proof.
  eexists. split; [vm_compute; reflexivity|].
  split; [exact february_2024_ok|].
  split; [vm_compute; reflexivity|].
  split; [vm_compute; reflexivity|].
  vm_compute. discriminate.
Qed.

(** C3, as the code has it. The run [february_2024] returns exactly 29
    rows; the peak month 1 is not the target month 2, so the bonus is 1.0:
    a weekday row's estimated revenue is
    [round(3000000/29 * 0.88 * 1 * 1 * 1.0)], which is 91034, and a weekend
    row's is [round(3000000/29 * 0.88 * 1 * 0.3 * 1.0)], which is 27310. *)
Theorem february_example :
  february_2024 = (Ok (rows_of february_2024), snd february_2024)
  /\ length (rows_of february_2024) = 29%nat
  /\ py_round (3000000 / 29 * 0.88 * 1 * 1 * 1.0)%float = Ok 91034
  /\ py_round (3000000 / 29 * 0.88 * 1 * 0.3 * 1.0)%float = Ok 27310
  /\ Forall (fun r =>
       estimated_revenue (fields r)
       = if weekday (rec_date (fields r)) <? 5 then 91034 else 27310)
       (rows_of february_2024).
Proof.
  split; [exact february_2024_ok|].
  split; [vm_compute; reflexivity|].
  split; [vm_compute; reflexivity|].
  split; [vm_compute; reflexivity|].
  apply Forall_forall. intros r Hr.
  apply list_elem_of_lookup in Hr. destruct Hr as [i Hi].
  assert (Hlt : (i < 29)%nat).
  { apply lookup_lt_Some in Hi. exact Hi. }
  do 29 (destruct i as [|i];
         [vm_compute in Hi; inversion Hi; vm_compute; reflexivity|]).
  lia.
Qed.


(** C6, counterexample. In the run [january_huge] the estimated profits
    all fit a signed 64-bit integer, but their sum, 9832258064516129792,
    does not: the last row's cumulative profit is the wrapped value
    -8614486009193421824, not the sum of the estimated profits. *)
Lemma cumulative_overflow_counterexample :
  exists r,
    last (rows_of january_huge) = Some r
    /\ january_huge = (Ok (rows_of january_huge), snd january_huge)
    /\ forallb fits_int64 (estimated_profit ∘ fields <$> rows_of january_huge)
       = true
    /\ sumZ (estimated_profit ∘ fields <$> rows_of january_huge)
       = 9832258064516129792
    /\ cumulative_profit r = -8614486009193421824.
Proof.
  eexists. split; [vm_compute; reflexivity|].
  repeat split; vm_compute; reflexivity.
Qed.

(** C4, counterexample. For the year 2^31 and the month 2 the estimator
    raises [OverflowError], which is not of the [ValueError] class: the
    month is valid, so [calendar.monthrange] succeeds, and the first
    [date(...)] cannot convert the year to a C integer. *)
Lemma huge_year_counterexample :
  ~ (MINYEAR <= 2147483648 <= MAXYEAR)
  /\ estimate_daily_settlement [] [] 2147483648 2 0 None constant_noise
     = (Raise OverflowError, constant_noise)
  /\ is_value_error OverflowError = false.
Proof.
  split; [unfold MAXYEAR; lia|].
  split; [vm_compute; reflexivity | reflexivity].
Qed.

(** ** The theorems at concrete inputs *)

Lemma omitted_month_uses_one_witness :
  ({[ 2 := 0.88%float ]} : gmap Z float) !! 1 = None
  /\ season_factor (Some {[ 2 := 0.88%float ]}) 1 = 1.0%float.
Proof.
  assert (H : ({[ 2 := 0.88%float ]} : gmap Z float) !! 1 = None)
    by (vm_compute; reflexivity).
  split; [exact H|].
  exact (proj1 (omitted_month_uses_one {[ 2 := 0.88%float ]} 1 H)).
Defined.

Lemma invalid_month_or_year_raises_witness :
  (~ (1 <= 2 <= 12) \/ ~ (MINYEAR <= 0 <= MAXYEAR))
  /\ estimate_daily_settlement [rev_row 3000000 0 1] [] 0 2 0 None
       constant_noise
     = (Raise ValueError, constant_noise).
Proof.
  assert (H : ~ (1 <= 2 <= 12) \/ ~ (MINYEAR <= 0 <= MAXYEAR))
    by (right; unfold MINYEAR; lia).
  split; [exact H|].
  exact (invalid_month_or_year_raises [rev_row 3000000 0 1] [] 0 2 0
           None constant_noise H).
Defined.

Lemma output_covers_the_month_witness :
  1 <= 2 <= 12 /\ MINYEAR <= 2024 <= MAXYEAR
  /\ length (rows_of february_2024) = 29%nat
  /\ exists r, last (rows_of february_2024) = Some r
       /\ rec_date (fields r) = {| year := 2024; month := 2; day := 29 |}.
Proof.
  assert (Hm : 1 <= 2 <= 12) by lia.
  assert (Hy : MINYEAR <= 2024 <= MAXYEAR) by (unfold MINYEAR, MAXYEAR; lia).
  split; [exact Hm|]. split; [exact Hy|].
  destruct (output_covers_the_month [rev_row 3000000 0 1] [] 2024 2 0
              (Some {[ 2 := 0.88%float ]}) constant_noise
              (rows_of february_2024) (snd february_2024)
              Hm Hy february_2024_ok) as (Hlen & _ & _ & Hlast).
  split; [exact Hlen | exact Hlast].
Defined.

Lemma cumulative_profit_is_running_sum_witness :
  fits_int64
    (sumZ (estimated_profit ∘ fields <$> rows_of february_2024)) = true
  /\ exists r, last (rows_of february_2024) = Some r
       /\ cumulative_profit r
          = sumZ (estimated_profit ∘ fields <$> rows_of february_2024).
Proof.
  assert (Hfit : fits_int64
            (sumZ (estimated_profit ∘ fields <$> rows_of february_2024))
            = true) by (vm_compute; reflexivity).
  split; [exact Hfit|].
  destruct (last (rows_of february_2024)) as [r|] eqn:E.
  - exists r. split; [reflexivity|].
    exact (proj2 (cumulative_profit_is_running_sum
                    [rev_row 3000000 0 1] [] 2024 2 0
                    (Some {[ 2 := 0.88%float ]}) constant_noise
                    (rows_of february_2024) (snd february_2024)
                    february_2024_ok) r E Hfit).
  - vm_compute in E. discriminate E.
Defined.

Lemma empty_tables_all_zero_witness :
  1 <= 2 <= 12 /\ MINYEAR <= 2024 <= MAXYEAR
  /\ exists rows,
       estimate_daily_settlement [] [] 2024 2 2e-2 None constant_noise
       = (Ok rows, constant_noise)
       /\ length rows = 29%nat
       /\ Forall (fun r => estimated_revenue (fields r) = 0
                           /\ estimated_expense (fields r) = 0
                           /\ estimated_profit (fields r) = 0) rows.
Proof.
  assert (Hm : 1 <= 2 <= 12) by lia.
  assert (Hy : MINYEAR <= 2024 <= MAXYEAR) by (unfold MINYEAR, MAXYEAR; lia).
  split; [exact Hm|]. split; [exact Hy|].
  exact (empty_tables_all_zero 2024 2 2e-2 None constant_noise Hm Hy).
Defined.

Lemma informational_columns_ignored_witness :
  Forall2 rev_same_inputs [rev_row 3000000 0 1] [rev_row_60]
  /\ Forall2 exp_same_inputs [exp_row 31] [exp_row_fuel]
  /\ estimate_daily_settlement [rev_row 3000000 0 1] [exp_row 31]
       2024 2 0 None constant_noise
     = estimate_daily_settlement [rev_row_60] [exp_row_fuel]
         2024 2 0 None constant_noise.
Proof.
  assert (Hr : Forall2 rev_same_inputs [rev_row 3000000 0 1] [rev_row_60])
    by (repeat constructor).
  assert (He : Forall2 exp_same_inputs [exp_row 31] [exp_row_fuel])
    by (repeat constructor).
  split; [exact Hr|]. split; [exact He|].
  exact (informational_columns_ignored _ _ _ _ 2024 2 0 None
           constant_noise Hr He).
Defined.


(** * Further properties of the estimator *)

(** ** The draws a run consumes *)

Lemma advanced_refl g : advanced 0 g g.
Proof. split; [reflexivity | lia]. Qed.

Lemma advanced_trans n k g1 g2 g3 :
  advanced n g1 g2 -> advanced k g2 g3 -> advanced (n + k) g1 g3.
Proof.
  intros [D1 P1] [D2 P2]. split; [congruence | lia].
Qed.

Lemma normal_advanced loc scale g x g' :
  normal loc scale g = (Ok x, g') -> advanced 1 g g'.
Proof.
  unfold normal. intros H. inversion H; subst. split; simpl; [reflexivity | lia].
Qed.

Lemma revenue_step_advanced dim tm s i df acc comp g acc' g' :
  revenue_step dim tm s i df acc comp g = (Ok acc', g') -> advanced 1 g g'.
Proof.
  unfold revenue_step. intros H. inv_ok H.
  eapply normal_advanced. exact Hc0.
Qed.

Lemma expense_step_advanced dim s i df acc comp g acc' g' :
  expense_step dim s i df acc comp g = (Ok acc', g') -> advanced 1 g g'.
Proof.
  unfold expense_step. intros H. inv_ok H.
  eapply normal_advanced. exact Hc0.
Qed.

Lemma foldM_advanced {A B} (f : A -> B -> M A) l :
  (forall acc x g acc' g', f acc x g = (Ok acc', g') -> advanced 1 g g') ->
  forall acc g acc' g',
    foldM f acc l g = (Ok acc', g') -> advanced (length l) g g'.
Proof.
  intros Hf. induction l as [|x t IH]; simpl; intros acc g acc' g' H.
  - inv_ok H. apply advanced_refl.
  - inv_ok H. apply (advanced_trans 1 (length t) g g0 g').
    + eapply Hf. exact Hc.
    + eapply IH. exact Hk.
Qed.

Lemma mapM_advanced {A B} (f : A -> M B) n l :
  (forall x g y g', f x g = (Ok y, g') -> advanced n g g') ->
  forall g ys g',
    mapM f l g = (Ok ys, g') -> advanced (length l * n) g g'.
Proof.
  intros Hf. induction l as [|x t IH]; simpl; intros g ys g' H.
  - inv_ok H. apply advanced_refl.
  - inv_ok H. eapply advanced_trans.
    + eapply Hf. exact Hc.
    + eapply IH. exact Hc0.
Qed.

Lemma day_record_advanced rev exp y m dim s i d g r g' :
  day_record rev exp y m dim s i d g = (Ok r, g') ->
  advanced (length rev + length exp) g g'.
Proof.
  unfold day_record. intros H. inv_ok H.
  eapply advanced_trans.
  - eapply foldM_advanced; [|exact Hc0].
    intros; eapply revenue_step_advanced; eauto.
  - eapply foldM_advanced; [|exact Hc1].
    intros; eapply expense_step_advanced; eauto.
Qed.

(** X1. A run that returns a frame has made one draw per counterparty row per
    day of the month, and nothing else to the generator: the stream of
    draws is the same and the position has advanced by the number of days
    times the number of rows of the two tables. *)
Theorem one_draw_per_row_per_day rev exp y m infl sfs g rows g' :
  estimate_daily_settlement rev exp y m infl sfs g = (Ok rows, g') ->
  draws g' = draws g
  /\ pos g'
     = (pos g + Z.to_nat (ndays y m) * (length rev + length exp))%nat.
Proof.
  intros H. unfold estimate_daily_settlement in H. inv_ok H.
  assert (Hm : 1 <= m <= 12).
  { destruct (Z.leb_spec 1 m), (Z.leb_spec m 12); try lia;
      rewrite monthrange_invalid in Hc by lia; discriminate. }
  destruct (monthrange_valid y m Hm) as [d1 E]. rewrite E in Hc.
  inversion Hc; subst a. simpl in Hc0.
  eapply mapM_advanced in Hc0.
  - rewrite length_seqZ in Hc0. exact Hc0.
  - intros x g1 r g2 Hd. simpl in Hd.
    eapply day_record_advanced. exact Hd.
Qed.

Lemma one_draw_per_row_per_day_witness :
  pos (snd january_halves) = 62%nat.
Proof.
  exact (proj2 (one_draw_per_row_per_day [rev_row 31 1 0] [exp_row 31]
                  2024 1 0 (Some {[ 1 := 0.4%float ]}) constant_noise
                  (rows_of january_halves) (snd january_halves)
                  january_halves_ok)).
Defined.

(** ** The accumulations behind a row *)

Lemma advance_0 g : advance 0 g = g.
Proof. destruct g as [d p]. unfold advance. simpl. f_equal. lia. Qed.

Lemma advance_advance n k g : advance k (advance n g) = advance (n + k) g.
Proof. unfold advance. simpl. f_equal. lia. Qed.

Lemma advanced_advance n g g' : advanced n g g' -> g' = advance n g.
Proof.
  destruct g' as [d p]. intros [Hd Hp]. simpl in *. subst.
  reflexivity.
Qed.

Lemma mapM_lookup_state {A B} (f : A -> M B) n l :
  (forall x g y g', f x g = (Ok y, g') -> advanced n g g') ->
  forall g ys g', mapM f l g = (Ok ys, g') ->
  forall i x y, l !! i = Some x -> ys !! i = Some y ->
  exists gi, f x (advance (i * n) g) = (Ok y, gi).
Proof.
  intros Hf. induction l as [|x0 t IH]; simpl; intros g ys g' H i x y Hx Hy.
  - discriminate.
  - inv_ok H. destruct i as [|i]; simpl in Hx, Hy.
    + inversion Hx; inversion Hy; subst. simpl. rewrite advance_0. eauto.
    + destruct (IH _ _ _ Hc0 _ _ _ Hx Hy) as [gi Hgi].
      apply Hf in Hc. apply advanced_advance in Hc. subst g0.
      rewrite advance_advance in Hgi. simpl. eauto.
Qed.

(** C1, as the code has it. Every row of a returned frame rounds its five
    money fields independently from the unrounded accumulations of its
    day.  For the row at position [i], the run's generator has made [i]
    times (revenue rows + expense rows) draws when the day starts; from
    there the loop over the revenue table returns [R] (revenue) and [S]
    (shipping) and the loop over the expense table returns [E].  The row
    holds [round(R)], [round(S)], [round(R + S)], [round(E)] and
    [round(R + S - E)]: none of its fields is computed from another
    rounded field. *)
Theorem money_fields_rounded_independently
    rev exp y m infl sfs g rows g' i r :
  estimate_daily_settlement rev exp y m infl sfs g = (Ok rows, g') ->
  rows !! i = Some r ->
  let dayf := day_factor (weekday (rec_date (fields r))) in
  let g_i := advance (i * (length rev + length exp)) g in
  exists R S E g2 g3,
    foldM (revenue_step (ndays y m) m (season_factor sfs m)
                        (inflation_factor infl) dayf)
          (0%float, 0%float) rev g_i = (Ok (R, S), g2)
    /\ foldM (expense_step (ndays y m) (season_factor sfs m)
                           (inflation_factor infl) dayf)
             0%float exp g2 = (Ok E, g3)
    /\ py_round R = Ok (estimated_revenue (fields r))
    /\ py_round S = Ok (shipping_revenue (fields r))
    /\ py_round (R + S)%float = Ok (total_revenue (fields r))
    /\ py_round E = Ok (estimated_expense (fields r))
    /\ py_round (R + S - E)%float = Ok (estimated_profit (fields r)).
Proof.
  intros H Hr. unfold estimate_daily_settlement in H. inv_ok H.
  assert (Hm : 1 <= m <= 12).
  { destruct (Z.leb_spec 1 m), (Z.leb_spec m 12); try lia;
      rewrite monthrange_invalid in Hc by lia; discriminate. }
  destruct (monthrange_valid y m Hm) as [d1 E1]. rewrite E1 in Hc.
  inversion Hc; subst a. simpl in Hc0.
  apply with_cumulative_lookup in Hr. destruct Hr as [Hr _].
  assert (Hi : (i < Z.to_nat (ndays y m))%nat).
  { apply lookup_lt_Some in Hr. apply mapM_ok in Hc0.
    rewrite <- (Forall2_length _ _ _ Hc0) in Hr.
    rewrite length_seqZ in Hr. exact Hr. }
  assert (Hd : seqZ 1 (ndays y m) !! i = Some (1 + Z.of_nat i))
    by (apply lookup_seqZ_lt; lia).
  destruct (mapM_lookup_state _ (length rev + length exp) _
              (fun x g1 r1 g2 => day_record_advanced _ _ _ _ _ _ _ x g1 r1 g2)
              _ _ _ Hc0 _ _ _ Hd Hr) as [gi Hday].
  unfold day_record in Hday. inv_ok Hday.
  apply mk_date_ok in Hc1. destruct Hc1 as (-> & _).
  pose proof (make_record_ok _ _ _ _ _ _ Hk) as (Hdate & Hround).
  simpl. rewrite Hdate.
  destruct a1 as [R S]. exists R, S, a2, g1, g2.
  split; [exact Hc2|]. split; [exact Hc3 | exact Hround].
Qed.

Lemma money_fields_rounded_independently_witness :
  exists r,
    rows_of january_halves !! 0%nat = Some r
    /\ exists R S E g2 g3,
         foldM (revenue_step (ndays 2024 1) 1
                  (season_factor (Some {[ 1 := 0.4%float ]}) 1)
                  (inflation_factor 0)
                  (day_factor (weekday (rec_date (fields r)))))
               (0%float, 0%float) [rev_row 31 1 0]
               (advance (0 * (length [rev_row 31 1 0]
                              + length [exp_row 31])) constant_noise)
         = (Ok (R, S), g2)
         /\ foldM (expense_step (ndays 2024 1)
                     (season_factor (Some {[ 1 := 0.4%float ]}) 1)
                     (inflation_factor 0)
                     (day_factor (weekday (rec_date (fields r)))))
                  0%float [exp_row 31] g2 = (Ok E, g3)
         /\ py_round R = Ok (estimated_revenue (fields r))
         /\ py_round S = Ok (shipping_revenue (fields r))
         /\ py_round (R + S)%float = Ok (total_revenue (fields r))
         /\ py_round E = Ok (estimated_expense (fields r))
         /\ py_round (R + S - E)%float = Ok (estimated_profit (fields r)).
Proof.
  destruct (rows_of january_halves !! 0%nat) as [r|] eqn:E.
  - exists r. split; [reflexivity|].
    exact (money_fields_rounded_independently
             [rev_row 31 1 0] [exp_row 31] 2024 1 0
             (Some {[ 1 := 0.4%float ]}) constant_noise
             (rows_of january_halves) (snd january_halves) 0%nat r
             january_halves_ok E).
  - vm_compute in E. discriminate E.
Defined.

(** ** Where an error comes from *)

Lemma bind_raise_inv {A B} (c : M A) (k : A -> M B) g e g' :
  bind c k g = (Raise e, g') ->
  c g = (Raise e, g')
  \/ exists a g1, c g = (Ok a, g1) /\ k a g1 = (Raise e, g').
Proof.
  unfold bind. destruct (c g) as [[a|e0] g1]; intros H.
  - right. eauto.
  - left. inversion H. reflexivity.
Qed.

Lemma foldM_raise_inv {A B} (f : A -> B -> M A) l : forall acc g e g',
  foldM f acc l g = (Raise e, g') ->
  exists acc0 x g0 g1, x ∈ l /\ f acc0 x g0 = (Raise e, g1).
Proof.
  induction l as [|x t IH]; simpl; intros acc g e g' H.
  - discriminate.
  - apply bind_raise_inv in H. destruct H as [H | (a & g1 & _ & H)].
    + exists acc, x, g, g'. split; [left | exact H].
    + destruct (IH _ _ _ _ H) as (acc0 & x0 & g0 & g2 & Hin & Hx).
      exists acc0, x0, g0, g2. split; [right; exact Hin | exact Hx].
Qed.

Lemma mapM_raise_inv {A B} (f : A -> M B) l : forall g e g',
  mapM f l g = (Raise e, g') ->
  exists x g0 g1, x ∈ l /\ f x g0 = (Raise e, g1).
Proof.
  induction l as [|x t IH]; simpl; intros g e g' H.
  - discriminate.
  - apply bind_raise_inv in H. destruct H as [H | (a & g1 & _ & H)].
    + exists x, g, g'. split; [left | exact H].
    + apply bind_raise_inv in H. destruct H as [H | (ys & g2 & _ & H)].
      * destruct (IH _ _ _ H) as (x0 & g0 & g3 & Hin & Hx).
        exists x0, g0, g3. split; [right; exact Hin | exact Hx].
      * discriminate.
Qed.

Lemma cell_div_raise c n e :
  cell_div c n = Raise e -> e = TypeError /\ ~ numeric c.
Proof.
  destruct c; simpl; intros H; inversion H. split; [reflexivity | tauto].
Qed.

Lemma cell_rmul_raise x c e :
  cell_rmul x c = Raise e -> e = TypeError /\ ~ numeric c.
Proof.
  destruct c; simpl; intros H; inversion H. split; [reflexivity | tauto].
Qed.

Lemma revenue_step_raise dim tm s i df acc comp g e g' :
  revenue_step dim tm s i df acc comp g = (Raise e, g') ->
  e = TypeError
  /\ (~ numeric (Rev.monthly_base comp)
      \/ ~ numeric (Rev.shipping_fee_rate comp)).
Proof.
  unfold revenue_step. intros H.
  apply bind_raise_inv in H. destruct H as [H | (base & g1 & _ & H)].
  { unfold lift in H. inversion H as [[Hd Hg]].
    apply cell_div_raise in Hd. destruct Hd; auto. }
  apply bind_raise_inv in H. destruct H as [H | (noise & g2 & _ & H)].
  { discriminate. }
  apply bind_raise_inv in H. destruct H as [H | (ship & g3 & _ & H)].
  { unfold lift in H. inversion H as [[Hd Hg]].
    apply cell_rmul_raise in Hd. destruct Hd; auto. }
  discriminate.
Qed.

Lemma expense_step_raise dim s i df acc comp g e g' :
  expense_step dim s i df acc comp g = (Raise e, g') ->
  e = TypeError /\ ~ numeric (Exp.monthly_base comp).
Proof.
  unfold expense_step. intros H.
  apply bind_raise_inv in H. destruct H as [H | (base & g1 & _ & H)].
  { unfold lift in H. inversion H as [[Hd Hg]].
    apply cell_div_raise in Hd. exact Hd. }
  apply bind_raise_inv in H. destruct H as [H | (noise & g2 & _ & H)];
    discriminate.
Qed.

Lemma py_round_raise x e :
  py_round x = Raise e -> e = ValueError \/ e = OverflowError.
Proof.
  unfold py_round. destruct (Prim2SF x); intros H; inversion H; auto.
Qed.

Lemma make_record_raise d dow R S E e :
  make_record d dow R S E = Raise e -> e = ValueError \/ e = OverflowError.
Proof.
  unfold make_record.
  destruct (py_round R) eqn:E1; [|intros H; inversion H; subst;
                                   eapply py_round_raise; eauto].
  destruct (py_round S) eqn:E2; [|intros H; inversion H; subst;
                                   eapply py_round_raise; eauto].
  destruct (py_round (R + S)%float) eqn:E3;
    [|intros H; inversion H; subst; eapply py_round_raise; eauto].
  destruct (py_round E) eqn:E4; [|intros H; inversion H; subst;
                                   eapply py_round_raise; eauto].
  destruct (py_round (R + S - E)%float) eqn:E5;
    [|intros H; inversion H; subst; eapply py_round_raise; eauto].
  discriminate.
Qed.

Lemma mk_date_raise y m d e :
  mk_date y m d = Raise e -> e = ValueError \/ e = OverflowError.
Proof.
  unfold mk_date. destruct (_ && _ && _); [destruct (_ && _)|];
    intros H; inversion H; auto.
Qed.

Lemma day_record_raise rev exp y m dim s i d g e g' :
  day_record rev exp y m dim s i d g = (Raise e, g') ->
  match e with
  | IllegalMonthError => False
  | TypeError =>
      Exists (fun c => ~ numeric (Rev.monthly_base c)
                       \/ ~ numeric (Rev.shipping_fee_rate c)) rev
      \/ Exists (fun c => ~ numeric (Exp.monthly_base c)) exp
  | ValueError | OverflowError => True
  end.
Proof.
  intros H. unfold day_record in H.
  apply bind_raise_inv in H. destruct H as [H | (dt & g2 & _ & H)].
  { unfold lift in H. inversion H as [[Hd Hg]].
    apply mk_date_raise in Hd. destruct Hd as [-> | ->]; exact I. }
  apply bind_raise_inv in H. destruct H as [H | (rs & g3 & _ & H)].
  { apply foldM_raise_inv in H.
    destruct H as (acc0 & c & g4 & g5 & Hin & H).
    apply revenue_step_raise in H. destruct H as [-> Hc].
    left. apply Exists_exists. exists c. split; assumption. }
  apply bind_raise_inv in H. destruct H as [H | (ex & g4 & _ & H)].
  { apply foldM_raise_inv in H.
    destruct H as (acc0 & c & g5 & g6 & Hin & H).
    apply expense_step_raise in H. destruct H as [-> Hc].
    right. apply Exists_exists. exists c. split; assumption. }
  unfold lift in H. inversion H as [[Hd Hg]].
  apply make_record_raise in Hd. destruct Hd as [-> | ->]; exact I.
Qed.

Lemma estimate_raise_day rev exp y m infl sfs g e g' :
  1 <= m <= 12 ->
  estimate_daily_settlement rev exp y m infl sfs g = (Raise e, g') ->
  exists d g0 g1,
    day_record rev exp y m (ndays y m) (season_factor sfs m)
               (inflation_factor infl) d g0 = (Raise e, g1).
Proof.
  intros Hm H. unfold estimate_daily_settlement in H.
  destruct (monthrange_valid y m Hm) as [d1 E].
  rewrite (bind_step _ _ g (d1, ndays y m) g) in H
    by (unfold lift; rewrite E; reflexivity).
  simpl in H.
  apply bind_raise_inv in H. destruct H as [H | (a & g1 & _ & H)];
    [|discriminate].
  apply mapM_raise_inv in H. destruct H as (d & g0 & g1 & _ & H).
  eauto.
Qed.

Lemma estimate_raise_month rev exp y m infl sfs g e g' :
  ~ (1 <= m <= 12) ->
  estimate_daily_settlement rev exp y m infl sfs g = (Raise e, g') ->
  e = IllegalMonthError.
Proof.
  intros Hm H. unfold estimate_daily_settlement in H.
  apply bind_raise_inv in H. destruct H as [H | (a & g1 & H & _)];
    unfold lift in H; rewrite monthrange_invalid in H by exact Hm.
  - inversion H. reflexivity.
  - discriminate.
Qed.

(** X2. The error of a run tells where it comes from.  For a month outside
    1..12 the only error possible is [IllegalMonthError], and it is raised
    for no other month.  [TypeError] is raised only for a month in 1..12
    and only when a monthly base or a shipping-fee rate of some row is not
    a number; tables whose cells in these columns are all numbers can
    only fail, for a month in 1..12, with the [ValueError] or
    [OverflowError] of a date whose year is out of range or of rounding
    NaN or an infinity. *)
Theorem error_provenance rev exp y m infl sfs g e g' :
  estimate_daily_settlement rev exp y m infl sfs g = (Raise e, g') ->
  (~ (1 <= m <= 12) -> e = IllegalMonthError)
  /\ match e with
     | IllegalMonthError => ~ (1 <= m <= 12)
     | TypeError =>
         1 <= m <= 12
         /\ (Exists (fun c => ~ numeric (Rev.monthly_base c)
                              \/ ~ numeric (Rev.shipping_fee_rate c)) rev
             \/ Exists (fun c => ~ numeric (Exp.monthly_base c)) exp)
     | ValueError | OverflowError => 1 <= m <= 12
     end.
Proof.
  intros H.
  destruct (decide (1 <= m <= 12)) as [Hm|Hm].
  - split; [intros Hn; contradiction|].
    destruct (estimate_raise_day _ _ _ _ _ _ _ _ _ Hm H)
      as (d & g0 & g1 & Hd).
    apply day_record_raise in Hd.
    destruct e; try exact Hm; [contradiction | split; [exact Hm | exact Hd]].
  - rewrite (estimate_raise_month _ _ _ _ _ _ _ _ _ Hm H).
    split; [reflexivity | exact Hm].
Qed.

Lemma error_provenance_witness :
  estimate_daily_settlement [rev_row_text] [] 2024 2 0 None constant_noise
  = (Raise TypeError, constant_noise)
  /\ 1 <= 2 <= 12
  /\ (Exists (fun c => ~ numeric (Rev.monthly_base c)
                       \/ ~ numeric (Rev.shipping_fee_rate c))
             [rev_row_text]
      \/ Exists (fun c => ~ numeric (Exp.monthly_base c)) []).
Proof.
  assert (H : estimate_daily_settlement [rev_row_text] [] 2024 2 0 None
                constant_noise = (Raise TypeError, constant_noise))
    by (vm_compute; reflexivity).
  split; [exact H|].
  exact (proj2 (error_provenance [rev_row_text] [] 2024 2 0 None
                  constant_noise TypeError constant_noise H)).
Defined.

(** ** Weekday labels *)

Lemma weekday_shift y m d :
  weekday {| year := y; month := m; day := d |}
  = (weekday {| year := y; month := m; day := 1 |} + (d - 1)) mod 7.
Proof.
  unfold weekday, toordinal. simpl.
  rewrite Zplus_mod_idemp_l. f_equal. lia.
Qed.

Lemma weekday_range dt : 0 <= weekday dt < 7.
Proof. unfold weekday. apply Z.mod_pos_bound. lia. Qed.

Lemma make_record_label d dow R S E r :
  make_record d dow R S E = Ok r ->
  weekday_label r = nth (Z.to_nat dow) weekday_labels ""%string.
Proof.
  unfold make_record.
  destruct (py_round R); [|discriminate].
  destruct (py_round S); [|discriminate].
  destruct (py_round (R + S)%float); [|discriminate].
  destruct (py_round E); [|discriminate].
  destruct (py_round (R + S - E)%float); [|discriminate].
  intros H. inversion H. reflexivity.
Qed.

Lemma weekday_labels_lookup k :
  0 <= k < 7 ->
  weekday_labels !! Z.to_nat k
  = Some (nth (Z.to_nat k) weekday_labels ""%string).
Proof.
  intros Hk.
  assert (H : k = 0 \/ k = 1 \/ k = 2 \/ k = 3 \/ k = 4 \/ k = 5 \/ k = 6)
    by lia.
  repeat (destruct H as [H | H]); subst k; reflexivity.
Qed.

Lemma estimate_ok_label rev exp y m infl sfs g rows g' i r :
  estimate_daily_settlement rev exp y m infl sfs g = (Ok rows, g') ->
  rows !! i = Some r ->
  weekday_label (fields r)
  = label_of_day (weekday {| year := y; month := m; day := 1 |})
                 (1 + Z.of_nat i).
Proof.
  intros H Hr. apply estimate_ok in H.
  destruct H as (records & -> & _ & HF).
  apply with_cumulative_lookup in Hr. destruct Hr as [Hr _].
  destruct (Forall2_lookup_r _ _ _ _ _ HF Hr)
    as (d & Hd & R & S & E & _ & Hmk).
  apply lookup_seqZ in Hd. destruct Hd as [-> _].
  apply make_record_label in Hmk. rewrite Hmk.
  unfold label_of_day. rewrite weekday_shift. reflexivity.
Qed.

(** X3. In a returned frame the weekday labels are entries of the label list
    (the index is never out of range) and they cycle through it in order:
    the row at position [i] is labelled with the entry at index
    [(w + i) mod 7], where [w] is the weekday of the first of the month. *)
Theorem weekday_labels_cycle rev exp y m infl sfs g rows g' i r :
  estimate_daily_settlement rev exp y m infl sfs g = (Ok rows, g') ->
  rows !! i = Some r ->
  weekday_labels
    !! Z.to_nat ((weekday {| year := y; month := m; day := 1 |}
                  + Z.of_nat i) mod 7)
  = Some (weekday_label (fields r)).
Proof.
  intros H Hr. rewrite (estimate_ok_label _ _ _ _ _ _ _ _ _ _ _ H Hr).
  unfold label_of_day.
  replace (1 + Z.of_nat i - 1) with (Z.of_nat i) by lia.
  apply weekday_labels_lookup. apply Z.mod_pos_bound. lia.
Qed.

Lemma weekday_labels_cycle_witness :
  exists r, rows_of february_2024 !! 3%nat = Some r
    /\ weekday_labels !! 6%nat = Some (weekday_label (fields r)).
Proof.
  destruct (rows_of february_2024 !! 3%nat) as [r|] eqn:E.
  - exists r. split; [reflexivity|].
    exact (weekday_labels_cycle [rev_row 3000000 0 1] [] 2024 2 0
             (Some {[ 2 := 0.88%float ]}) constant_noise
             (rows_of february_2024) (snd february_2024) 3%nat r
             february_2024_ok E).
  - vm_compute in E. discriminate E.
Defined.

(** ** The number of weekday rows *)

Lemma length_filter_fmap {A B} (f : A -> B) (P : B -> Prop)
    `{!forall x, Decision (P x)} (l : list A) :
  length (filter (fun x => P (f x)) l) = length (filter P (f <$> l)).
Proof.
  induction l as [|x t IH]; [reflexivity|].
  rewrite fmap_cons, !filter_cons.
  destruct (decide (P (f x))); simpl; rewrite IH; reflexivity.
Qed.

Lemma ndays_cases y m :
  1 <= m <= 12 ->
  ndays y m = 28 \/ ndays y m = 29 \/ ndays y m = 30 \/ ndays y m = 31.
Proof.
  intros Hm. unfold ndays.
  month_cases m; simpl; try lia.
  destruct (isleap y); lia.
Qed.

Lemma weekday_count_bounds w1 n :
  0 <= w1 < 7 -> n = 28 \/ n = 29 \/ n = 30 \/ n = 31 ->
  (20 <= length (filter (fun l => l ∈ weekday_names)
                        (label_of_day w1 <$> seqZ 1 n)) <= 23)%nat.
Proof.
  intros Hw Hn.
  assert (H : w1 = 0 \/ w1 = 1 \/ w1 = 2 \/ w1 = 3 \/ w1 = 4 \/ w1 = 5
              \/ w1 = 6) by lia.
  repeat (destruct H as [H | H]); subst w1;
    repeat (destruct Hn as [Hn | Hn]); subst n;
    vm_compute; split; lia.
Qed.

Lemma estimate_ok_labels rev exp y m infl sfs g rows g' :
  estimate_daily_settlement rev exp y m infl sfs g = (Ok rows, g') ->
  (fun r => weekday_label (fields r)) <$> rows
  = label_of_day (weekday {| year := y; month := m; day := 1 |})
      <$> seqZ 1 (ndays y m).
Proof.
  intros H. pose proof (estimate_ok_dates _ _ _ _ _ _ _ _ _ H) as [Hlen _].
  apply list_eq. intros i. rewrite !list_lookup_fmap.
  destruct (rows !! i) as [r|] eqn:Er; simpl.
  - rewrite (estimate_ok_label _ _ _ _ _ _ _ _ _ _ _ H Er).
    apply lookup_lt_Some in Er.
    rewrite (lookup_seqZ_lt 1 (ndays y m) i) by lia.
    reflexivity.
  - apply lookup_ge_None in Er.
    rewrite lookup_seqZ_ge by lia. reflexivity.
Qed.

(** X4. Every returned frame has between 20 and 23 rows labelled Monday to
    Friday.  So the selection whose mean the report shows as the weekday
    average is never empty, and the dashboard's guard [days_left > 0]
    always holds. *)
Theorem weekday_rows_bounds rev exp y m infl sfs g rows g' :
  estimate_daily_settlement rev exp y m infl sfs g = (Ok rows, g') ->
  (20 <= length (weekday_rows rows) <= 23)%nat.
Proof.
  intros H. unfold weekday_rows.
  pose proof (length_filter_fmap (fun r => weekday_label (fields r))
                (fun l => l ∈ weekday_names) rows) as E.
  simpl in E. rewrite E.
  rewrite (estimate_ok_labels _ _ _ _ _ _ _ _ _ H).
  apply weekday_count_bounds.
  - apply weekday_range.
  - apply ndays_cases. apply estimate_ok in H.
    destruct H as (_ & _ & Hm & _). exact Hm.
Qed.

Lemma weekday_rows_bounds_witness :
  (20 <= length (weekday_rows (rows_of february_2024)) <= 23)%nat.
Proof.
  exact (weekday_rows_bounds [rev_row 3000000 0 1] [] 2024 2 0
           (Some {[ 2 := 0.88%float ]}) constant_noise
           (rows_of february_2024) (snd february_2024) february_2024_ok).
Defined.

(** ** Tables for which the rounded fields add up *)

Lemma py_round_zero x : is_zero x -> py_round x = Ok 0.
Proof. intros [s H]. unfold py_round. rewrite H. reflexivity. Qed.

Lemma mul_zero_r x r : is_zero r -> is_zero (x * r)%float \/ is_nan (x * r)%float.
Proof.
  intros [s H]. unfold is_zero, is_nan. rewrite mul_spec, H.
  destruct (Prim2SF x); simpl; eauto.
Qed.

Lemma add_zero_or_nan a b :
  is_zero a \/ is_nan a -> is_zero b \/ is_nan b ->
  is_zero (a + b)%float \/ is_nan (a + b)%float.
Proof.
  intros [[sa Ha]|Ha] [[sb Hb]|Hb]; unfold is_zero, is_nan in *;
    rewrite add_spec; rewrite ?Ha, ?Hb.
  - left. destruct sa, sb; simpl; eauto.
  - right. reflexivity.
  - right. reflexivity.
  - right. reflexivity.
Qed.

Lemma py_round_add_zero R S :
  is_zero S -> py_round (R + S)%float = py_round R.
Proof.
  intros [s H]. unfold py_round. rewrite add_spec, H.
  destruct (Prim2SF R) as [sr|sr| |sr mr er]; simpl; try reflexivity.
  destruct sr, s; reflexivity.
Qed.

Lemma py_round_sub_zero x : py_round (x - 0)%float = py_round x.
Proof.
  unfold py_round. rewrite sub_spec.
  change (Prim2SF 0) with (S754_zero false).
  destruct (Prim2SF x) as [sx|sx| |sx mx ex]; simpl; try reflexivity.
  destruct sx; reflexivity.
Qed.

Lemma py_round_zero_sub E :
  py_round (0 - E)%float
  = match py_round E with Ok z => Ok (- z) | Raise e => Raise e end.
Proof.
  unfold py_round. rewrite sub_spec.
  change (Prim2SF 0) with (S754_zero false).
  destruct (Prim2SF E) as [se|se| |se me ee]; simpl; try reflexivity.
  - destruct se; reflexivity.
  - destruct se; simpl; f_equal; lia.
Qed.

Lemma revenue_fold_zero_rate dim tm s i df l : forall acc g acc' g',
  Forall (fun c => exists r, Rev.shipping_fee_rate c = Num r /\ is_zero r) l ->
  is_zero (snd acc) \/ is_nan (snd acc) ->
  foldM (revenue_step dim tm s i df) acc l g = (Ok acc', g') ->
  is_zero (snd acc') \/ is_nan (snd acc').
Proof.
  induction l as [|x t IH]; simpl; intros acc g acc' g' Hl Hacc H.
  - inv_ok H. exact Hacc.
  - inversion Hl as [|? ? (r & Hr & Hz) Ht]; subst.
    inv_ok H. apply (IH _ _ _ _ Ht) in Hk; [exact Hk|].
    unfold revenue_step in Hc. inv_ok Hc.
    rewrite Hr in Hc1. simpl in Hc1. inversion Hc1; subst. simpl.
    apply add_zero_or_nan; [exact Hacc|].
    apply mul_zero_r. exact Hz.
Qed.

Lemma estimate_ok_row rev exp y m infl sfs g rows g' r :
  estimate_daily_settlement rev exp y m infl sfs g = (Ok rows, g') ->
  r ∈ rows ->
  exists d R S E,
    day_sums rev exp (ndays y m) m (season_factor sfs m)
             (inflation_factor infl)
             {| year := y; month := m; day := d |} R S E
    /\ make_record {| year := y; month := m; day := d |}
         (weekday {| year := y; month := m; day := d |}) R S E
       = Ok (fields r).
Proof.
  intros H Hr. apply estimate_ok in H.
  destruct H as (records & -> & _ & HF).
  apply list_elem_of_lookup in Hr. destruct Hr as [i Hi].
  apply with_cumulative_lookup in Hi. destruct Hi as [Hi _].
  destruct (Forall2_lookup_r _ _ _ _ _ HF Hi)
    as (d & _ & R & S & E & Hsum & Hmk).
  eauto 6.
Qed.

(** X5. When every revenue row has a shipping-fee rate of zero, every row of a
    returned frame has shipping revenue 0 and a total revenue equal to its
    estimated revenue: the rounded fields add up. *)
Theorem zero_rates_total_is_revenue rev exp y m infl sfs g rows g' r :
  Forall (fun c => exists x, Rev.shipping_fee_rate c = Num x /\ is_zero x)
         rev ->
  estimate_daily_settlement rev exp y m infl sfs g = (Ok rows, g') ->
  r ∈ rows ->
  shipping_revenue (fields r) = 0
  /\ total_revenue (fields r) = estimated_revenue (fields r).
Proof.
  intros Hrate H Hr.
  destruct (estimate_ok_row _ _ _ _ _ _ _ _ _ _ H Hr)
    as (d & R & S & E & (g1 & g2 & g3 & Hrev & _) & Hmk).
  apply make_record_ok in Hmk.
  destruct Hmk as (_ & HR & HS & HRS & _).
  assert (Hz : is_zero S).
  { eapply revenue_fold_zero_rate in Hrev; [|exact Hrate|].
    - simpl in Hrev. destruct Hrev as [Hz|Hn]; [exact Hz|].
      rewrite py_round_nan in HS by exact Hn. discriminate.
    - left. exists false. reflexivity. }
  rewrite py_round_zero in HS by exact Hz.
  rewrite py_round_add_zero in HRS by exact Hz.
  split; congruence.
Qed.

Lemma zero_rates_total_is_revenue_witness :
  exists r, rows_of february_2024 !! 0%nat = Some r
    /\ shipping_revenue (fields r) = 0
    /\ total_revenue (fields r) = estimated_revenue (fields r).
Proof.
  destruct (rows_of february_2024 !! 0%nat) as [r|] eqn:E.
  - exists r. split; [reflexivity|].
    apply (zero_rates_total_is_revenue [rev_row 3000000 0 1] [] 2024 2 0
             (Some {[ 2 := 0.88%float ]}) constant_noise
             (rows_of february_2024) (snd february_2024) r).
    + repeat constructor. exists 0%float.
      split; [reflexivity | exists false; reflexivity].
    + exact february_2024_ok.
    + apply list_elem_of_lookup. exists 0%nat. exact E.
  - vm_compute in E. discriminate E.
Defined.

(** X6. When the expense table is empty, every row of a returned frame has
    estimated expense 0 and an estimated profit equal to its total
    revenue. *)
Theorem no_expense_profit_is_total rev y m infl sfs g rows g' r :
  estimate_daily_settlement rev [] y m infl sfs g = (Ok rows, g') ->
  r ∈ rows ->
  estimated_expense (fields r) = 0
  /\ estimated_profit (fields r) = total_revenue (fields r).
Proof.
  intros H Hr.
  destruct (estimate_ok_row _ _ _ _ _ _ _ _ _ _ H Hr)
    as (d & R & S & E & (g1 & g2 & g3 & _ & Hexp) & Hmk).
  simpl in Hexp. inv_ok Hexp.
  apply make_record_ok in Hmk.
  destruct Hmk as (_ & _ & _ & HRS & HE & HP).
  rewrite py_round_sub_zero in HP.
  rewrite py_round_zero in HE by (exists false; reflexivity).
  split; congruence.
Qed.

Lemma no_expense_profit_is_total_witness :
  exists r, rows_of february_2024 !! 2%nat = Some r
    /\ estimated_expense (fields r) = 0
    /\ estimated_profit (fields r) = total_revenue (fields r).
Proof.
  destruct (rows_of february_2024 !! 2%nat) as [r|] eqn:E.
  - exists r. split; [reflexivity|].
    apply (no_expense_profit_is_total [rev_row 3000000 0 1] 2024 2 0
             (Some {[ 2 := 0.88%float ]}) constant_noise
             (rows_of february_2024) (snd february_2024) r).
    + exact february_2024_ok.
    + apply list_elem_of_lookup. exists 2%nat. exact E.
  - vm_compute in E. discriminate E.
Defined.

Lemma january_expense_only_ok :
  january_expense_only
  = (Ok (rows_of january_expense_only), snd january_expense_only).
Proof. vm_compute. reflexivity. Qed.

(** X7. When the revenue table is empty, every row of a returned frame has
    estimated revenue, shipping revenue and total revenue 0, and an
    estimated profit that is exactly minus its estimated expense. *)
Theorem no_revenue_profit_is_minus_expense exp y m infl sfs g rows g' r :
  estimate_daily_settlement [] exp y m infl sfs g = (Ok rows, g') ->
  r ∈ rows ->
  estimated_revenue (fields r) = 0
  /\ shipping_revenue (fields r) = 0
  /\ total_revenue (fields r) = 0
  /\ estimated_profit (fields r) = - estimated_expense (fields r).
Proof.
  intros H Hr.
  destruct (estimate_ok_row _ _ _ _ _ _ _ _ _ _ H Hr)
    as (d & R & S & E & (g1 & g2 & g3 & Hrev & _) & Hmk).
  simpl in Hrev. inv_ok Hrev. inversion Hrev; subst R S.
  apply make_record_ok in Hmk.
  destruct Hmk as (_ & HR & HS & HRS & HE & HP).
  change (0 + 0)%float with 0%float in *.
  rewrite py_round_zero in HR, HS, HRS by (exists false; reflexivity).
  rewrite py_round_zero_sub, HE in HP.
  repeat split; congruence.
Qed.

Lemma no_revenue_profit_is_minus_expense_witness :
  exists r, rows_of january_expense_only !! 0%nat = Some r
    /\ estimated_expense (fields r) = 86700
    /\ estimated_profit (fields r) = - estimated_expense (fields r).
Proof.
  destruct (rows_of january_expense_only !! 0%nat) as [r|] eqn:E.
  - exists r. split; [reflexivity|].
    split; [vm_compute in E; inversion E; reflexivity|].
    apply (no_revenue_profit_is_minus_expense [exp_row 3100000] 2024 1 2e-2
             None constant_noise
             (rows_of january_expense_only) (snd january_expense_only) r).
    + exact january_expense_only_ok.
    + apply list_elem_of_lookup. exists 0%nat. exact E.
  - vm_compute in E. discriminate E.
Defined.

(** * The weekly table *)

Lemma totals_eq (a b : totals) :
  sum_revenue a = sum_revenue b -> sum_expense a = sum_expense b ->
  sum_profit a = sum_profit b -> a = b.
Proof. destruct a, b; simpl; intros; subst; reflexivity. Qed.

Lemma plus_totals_comm a b : plus_totals a b = plus_totals b a.
Proof. apply totals_eq; simpl; lia. Qed.

Lemma plus_totals_assoc a b c :
  plus_totals a (plus_totals b c) = plus_totals (plus_totals a b) c.
Proof. apply totals_eq; simpl; lia. Qed.

Lemma wrap_plus_l a b :
  wrap_totals (plus_totals (wrap_totals a) b)
  = wrap_totals (plus_totals a b).
Proof. apply totals_eq; cbn [wrap_totals plus_totals sum_revenue sum_expense sum_profit]; apply to_dtype_add. Qed.

Lemma wrap_plus_r a b :
  wrap_totals (plus_totals a (wrap_totals b))
  = wrap_totals (plus_totals a b).
Proof.
  rewrite (plus_totals_comm a), wrap_plus_l, plus_totals_comm. reflexivity.
Qed.

Lemma wrap_plus_congr a b b' :
  wrap_totals b = wrap_totals b' ->
  wrap_totals (plus_totals a b) = wrap_totals (plus_totals a b').
Proof.
  intros H. rewrite <- (wrap_plus_r a b), H, wrap_plus_r. reflexivity.
Qed.

Lemma sum_totals_cons x l :
  sum_totals (x :: l) = plus_totals x (sum_totals l).
Proof. reflexivity. Qed.

Lemma group_add_sum k v l :
  wrap_totals (sum_totals (week_totals <$> group_add k v l))
  = wrap_totals (plus_totals v (sum_totals (week_totals <$> l))).
Proof.
  induction l as [|w t IH]; cbn [group_add].
  - rewrite fmap_cons, sum_totals_cons. reflexivity.
  - destruct (k <? week w).
    { rewrite fmap_cons, sum_totals_cons. reflexivity. }
    destruct (k =? week w); rewrite !fmap_cons, !sum_totals_cons.
    + cbn [week_totals]. unfold add_totals. rewrite wrap_plus_l.
      f_equal. rewrite (plus_totals_comm (week_totals w) v).
      symmetry. apply plus_totals_assoc.
    + rewrite (wrap_plus_congr _ _ _ IH). f_equal.
      rewrite !plus_totals_assoc.
      f_equal. apply plus_totals_comm.
Qed.

Lemma group_add_keys k v l x :
  x ∈ week <$> group_add k v l <-> x = k \/ x ∈ week <$> l.
Proof.
  induction l as [|w t IH]; cbn [group_add].
  - rewrite fmap_cons, elem_of_cons. reflexivity.
  - destruct (Z.ltb_spec k (week w)).
    { rewrite fmap_cons, elem_of_cons. reflexivity. }
    destruct (Z.eqb_spec k (week w)) as [E|E];
      rewrite !fmap_cons, !elem_of_cons; cbn [week].
    + rewrite <- E. tauto.
    + rewrite IH. tauto.
Qed.

Lemma group_add_sorted k v l :
  StronglySorted Z.lt (week <$> l) ->
  StronglySorted Z.lt (week <$> group_add k v l).
Proof.
  induction l as [|w t IH]; simpl; intros Hs.
  - repeat constructor.
  - inversion Hs as [|? ? Ht Hw]; subst.
    destruct (Z.ltb_spec k (week w)); simpl.
    + constructor; [exact Hs|].
      constructor; [exact H|].
      eapply Forall_impl; [exact Hw|]. simpl. intros; lia.
    + destruct (Z.eqb_spec k (week w)) as [E|E]; simpl.
      * rewrite E. exact Hs.
      * constructor; [apply IH; exact Ht|].
        apply Forall_forall. intros x Hx.
        apply group_add_keys in Hx. destruct Hx as [-> | Hx]; [lia|].
        rewrite Forall_forall in Hw. apply Hw. exact Hx.
Qed.

Lemma foldl_group_sum key df : forall acc,
  wrap_totals
    (sum_totals (week_totals <$>
                   foldl (fun a r => group_add (key r) (row_totals r) a)
                         acc df))
  = wrap_totals (plus_totals (sum_totals (week_totals <$> acc))
                             (sum_totals (row_totals <$> df))).
Proof.
  induction df as [|r t IH]; intros acc; cbn [foldl].
  - f_equal. apply totals_eq; simpl; lia.
  - rewrite IH, fmap_cons, sum_totals_cons.
    rewrite (plus_totals_comm _ (sum_totals (row_totals <$> t))).
    rewrite (wrap_plus_congr _ _ _ (group_add_sum _ _ _)).
    f_equal. rewrite (plus_totals_comm (sum_totals (week_totals <$> acc))).
    rewrite !plus_totals_assoc. f_equal. apply plus_totals_comm.
Qed.

Lemma foldl_group_keys key df : forall acc x,
  x ∈ week <$> foldl (fun a r => group_add (key r) (row_totals r) a) acc df
  <-> x ∈ week <$> acc \/ exists r, r ∈ df /\ key r = x.
Proof.
  induction df as [|r t IH]; intros acc x; cbn [foldl].
  - split; [auto | intros [H | (r & Hr & _)]; [exact H | inversion Hr]].
  - rewrite IH, group_add_keys.
    split.
    + intros [[-> | H] | (r0 & Hr0 & E)]; eauto.
      * right. exists r. split; [left | reflexivity].
      * right. exists r0. split; [right; exact Hr0 | exact E].
    + intros [H | (r0 & Hr0 & E)]; [auto|].
      apply elem_of_cons in Hr0. destruct Hr0 as [-> | Hr0]; eauto.
Qed.

Lemma foldl_group_sorted key df : forall acc,
  StronglySorted Z.lt (week <$> acc) ->
  StronglySorted Z.lt
    (week <$> foldl (fun a r => group_add (key r) (row_totals r) a) acc df).
Proof.
  induction df as [|r t IH]; intros acc Hs; cbn [foldl]; [exact Hs|].
  apply IH. apply group_add_sorted. exact Hs.
Qed.

Lemma sum_row_totals df :
  wrap_totals (sum_totals (row_totals <$> df)) = monthly_totals df.
Proof.
  unfold monthly_totals. f_equal.
  induction df as [|r t IH]; [reflexivity|].
  rewrite fmap_cons, sum_totals_cons, IH.
  apply totals_eq; reflexivity.
Qed.

(** X8. For a frame the report page can store (the year between 2020 and
    2030) whose amounts fit 64-bit signed integers, the weekly table
    accounts for every amount of the frame modulo 2^64: the weekly sums of
    total revenue, estimated expense and estimated profit, added up and
    reduced to 64 bits, are the monthly sums the report shows.  So a
    column of weekly sums whose total fits a 64-bit signed integer adds
    up to the month's figure exactly. *)
Theorem weekly_sums_add_up rev exp y m infl sfs g rows g' :
  2020 <= y <= 2030 ->
  estimate_daily_settlement rev exp y m infl sfs g = (Ok rows, g') ->
  Forall amounts_fit rows ->
  let weekly := sum_totals (week_totals <$> weekly_summary rows) in
  wrap_totals weekly = monthly_totals rows
  /\ (fits_int64 (sum_revenue weekly) = true ->
      sum_revenue weekly = sum_revenue (monthly_totals rows))
  /\ (fits_int64 (sum_expense weekly) = true ->
      sum_expense weekly = sum_expense (monthly_totals rows))
  /\ (fits_int64 (sum_profit weekly) = true ->
      sum_profit weekly = sum_profit (monthly_totals rows)).
Proof.
  intros _ _ _ weekly.
  assert (H : wrap_totals weekly = monthly_totals rows).
  { unfold weekly, weekly_summary, groupby_sum.
    rewrite foldl_group_sum, <- sum_row_totals.
    rewrite fmap_nil. apply (f_equal wrap_totals).
    apply totals_eq; simpl; lia. }
  split; [exact H|].
  rewrite <- H. cbn [wrap_totals sum_revenue sum_expense sum_profit].
  repeat split; intros Hfit; symmetry; apply to_dtype_int64_fits; exact Hfit.
Qed.

Lemma weekly_sums_add_up_witness :
  2020 <= 2024 <= 2030
  /\ Forall amounts_fit (rows_of february_2024)
  /\ sum_profit (sum_totals (week_totals
                               <$> weekly_summary (rows_of february_2024)))
     = sum_profit (monthly_totals (rows_of february_2024)).
Proof.
  assert (Hy : 2020 <= 2024 <= 2030) by lia.
  assert (Hfit : Forall amounts_fit (rows_of february_2024)).
  { apply Forall_forall. intros r Hr.
    apply list_elem_of_lookup in Hr. destruct Hr as [i Hi].
    assert (Hlt : (i < 29)%nat) by (apply lookup_lt_Some in Hi; exact Hi).
    do 29 (destruct i as [|i];
           [vm_compute in Hi; inversion Hi; repeat split; reflexivity|]).
    lia. }
  split; [exact Hy|]. split; [exact Hfit|].
  apply (weekly_sums_add_up [rev_row 3000000 0 1] [] 2024 2 0
           (Some {[ 2 := 0.88%float ]}) constant_noise
           (rows_of february_2024) (snd february_2024)
           Hy february_2024_ok Hfit).
  vm_compute. reflexivity.
Defined.

(** X9. The weekly table of a frame the report page can store has one row per
    ISO week that has a day in the frame, and its rows are in strictly
    ascending order of the week numbers. *)
Theorem weekly_rows_one_per_week rev exp y m infl sfs g rows g' :
  2020 <= y <= 2030 ->
  estimate_daily_settlement rev exp y m infl sfs g = (Ok rows, g') ->
  StronglySorted Z.lt (week <$> weekly_summary rows)
  /\ forall k, k ∈ week <$> weekly_summary rows
              <-> exists r, r ∈ rows /\ iso_week (rec_date (fields r)) = k.
Proof.
  intros _ _. unfold weekly_summary, groupby_sum. split.
  - apply foldl_group_sorted. constructor.
  - intros k. rewrite foldl_group_keys. split.
    + intros [H | H]; [inversion H | exact H].
    + auto.
Qed.

Lemma weekly_rows_one_per_week_witness :
  2020 <= 2024 <= 2030
  /\ StronglySorted Z.lt (week <$> weekly_summary (rows_of february_2024)).
Proof.
  assert (Hy : 2020 <= 2024 <= 2030) by lia.
  split; [exact Hy|].
  exact (proj1 (weekly_rows_one_per_week [rev_row 3000000 0 1] [] 2024 2 0
                  (Some {[ 2 := 0.88%float ]}) constant_noise
                  (rows_of february_2024) (snd february_2024)
                  Hy february_2024_ok)).
Defined.

(** ** The order of the weekly table *)

Lemma group_add_week k v l :
  week <$> group_add k v l = key_add k (week <$> l).
Proof.
  induction l as [|w t IH]; cbn [group_add key_add]; [reflexivity|].
  rewrite fmap_cons. cbn [key_add].
  destruct (k <? week w); [reflexivity|].
  destruct (Z.eqb_spec k (week w)) as [E|E].
  - rewrite fmap_cons. simpl. rewrite E. reflexivity.
  - rewrite fmap_cons, IH. reflexivity.
Qed.

Lemma groupby_sum_weeks key df : forall acc,
  week <$> foldl (fun a r => group_add (key r) (row_totals r) a) acc df
  = foldl (fun a k => key_add k a) (week <$> acc) (key <$> df).
Proof.
  induction df as [|r t IH]; intros acc; cbn [foldl]; [reflexivity|].
  rewrite IH, group_add_week. reflexivity.
Qed.

Lemma estimate_ok_weeks rev exp y m infl sfs g rows g' :
  estimate_daily_settlement rev exp y m infl sfs g = (Ok rows, g') ->
  week <$> weekly_summary rows = month_weeks y m.
Proof.
  intros H. unfold weekly_summary, groupby_sum, month_weeks.
  rewrite groupby_sum_weeks. f_equal.
  pose proof (estimate_ok_dates _ _ _ _ _ _ _ _ _ H) as [Hlen Hdate].
  apply list_eq. intros i. rewrite !list_lookup_fmap.
  destruct (rows !! i) as [r|] eqn:Er; simpl.
  - rewrite (Hdate _ _ Er). apply lookup_lt_Some in Er.
    rewrite (lookup_seqZ_lt 1 (ndays y m) i) by lia. reflexivity.
  - apply lookup_ge_None in Er.
    rewrite lookup_seqZ_ge by lia. reflexivity.
Qed.

Ltac year_cases y :=
  let H := fresh "Hy" in
  assert (H : y = 2020 \/ y = 2021 \/ y = 2022 \/ y = 2023 \/ y = 2024
              \/ y = 2025 \/ y = 2026 \/ y = 2027 \/ y = 2028 \/ y = 2029
              \/ y = 2030) by lia;
  repeat (destruct H as [H | H]); subst y.

(** X10. The weekly table is ordered by week number, which is not always the
    order of the dates.  For a frame the report page can store: in a
    January whose first day is a Friday, Saturday or Sunday, the first
    days of the month belong to week 52 or 53 and make the last row of the
    table; in a December whose last day belongs to week 1, the last days
    of the month make the first row; in every other month the first row
    is the week of the first day and the last row the week of the last
    day. *)
Theorem weekly_table_order rev exp y m infl sfs g rows g' :
  2020 <= y <= 2030 ->
  estimate_daily_settlement rev exp y m infl sfs g = (Ok rows, g') ->
  let wk := week <$> weekly_summary rows in
  let first_week := iso_week {| year := y; month := m; day := 1 |} in
  let last_week :=
    iso_week {| year := y; month := m; day := ndays y m |} in
  if (m =? 1) && (3 <? weekday {| year := y; month := 1; day := 1 |})
  then last wk = Some first_week /\ 52 <= first_week
  else if (m =? 12) && (last_week =? 1)
       then head wk = Some last_week
       else head wk = Some first_week /\ last wk = Some last_week.
Proof.
  intros Hy H. rewrite (estimate_ok_weeks _ _ _ _ _ _ _ _ _ H).
  apply estimate_ok in H. destruct H as (_ & _ & Hm & _).
  clear rev exp infl sfs g rows g'.
  year_cases y; month_cases m; vm_compute;
    repeat split; try reflexivity; discriminate.
Qed.

Lemma january_2021_ok :
  january_2021 = (Ok (rows_of january_2021), snd january_2021).
Proof. vm_compute. reflexivity. Qed.

Lemma weekly_table_order_witness :
  2020 <= 2021 <= 2030
  /\ last (week <$> weekly_summary (rows_of january_2021)) = Some 53
  /\ head (week <$> weekly_summary (rows_of january_2021)) = Some 1.
Proof.
  assert (Hy : 2020 <= 2021 <= 2030) by lia.
  split; [exact Hy|].
  split.
  - exact (proj1 (weekly_table_order [] [] 2021 1 2e-2 None constant_noise
                    (rows_of january_2021) (snd january_2021)
                    Hy january_2021_ok)).
  - vm_compute. reflexivity.
Defined.

(** * The sample tables *)

Lemma sample_loop_inv {A} (f : Z -> int_rng -> A * int_rng)
    (Inv : int_rng -> Prop) (P : Z -> A -> Prop) l :
  (forall i s, Inv s -> P i (fst (f i s)) /\ Inv (snd (f i s))) ->
  forall s, Inv s -> Forall2 P l (fst (sample_loop f l s)).
Proof.
  intros Hf. induction l as [|i t IH]; simpl; intros s Hs.
  - constructor.
  - destruct (Hf i s Hs) as [Hp Hi].
    destruct (f i s) as [row s1]. simpl in *.
    specialize (IH s1 Hi).
    destruct (sample_loop f t s1) as [rows s2]. simpl in *.
    constructor; assumption.
Qed.

Lemma Forall2_fmap_eq {A B C} (f : A -> C) (h : B -> C) l k :
  Forall2 (fun x y => h y = f x) l k -> h <$> k = f <$> l.
Proof.
  induction 1 as [|x y l k E _ IH]; [reflexivity|].
  rewrite !fmap_cons, E, IH. reflexivity.
Qed.

Lemma sample_revenue_row_id i s :
  Rev.company_id (fst (sample_revenue_row i s))
  = ("R" ++ format_d 3 i)%string.
Proof.
  unfold sample_revenue_row.
  destruct (randint 50 500 s) as [n s1].
  destruct (choice _ _ s1) as [c s2].
  destruct (choice _ _ s2) as [r s3].
  destruct (choice _ _ s3) as [pk s4]. reflexivity.
Qed.

Lemma sample_expense_row_id i s :
  Exp.company_id (fst (sample_expense_row i s))
  = ("E" ++ format_d 3 i)%string.
Proof.
  unfold sample_expense_row.
  destruct (randint 20 300 s) as [n s1].
  destruct (choice _ _ s1) as [c s2].
  destruct (choice _ _ s2) as [cat s3]. reflexivity.
Qed.

(** X11. Whatever the generator draws, each sample table has fifty rows, whose
    identifiers are [R001] to [R050] (revenue) and [E001] to [E050]
    (expense) in this order; no identifier occurs twice in a table. *)
Theorem sample_tables_identifiers seed :
  let rev := fst (generate_sample_revenue_master seed) in
  let exp := fst (generate_sample_expense_master seed) in
  Rev.company_id <$> rev
  = (fun i => "R" ++ format_d 3 i)%string <$> seqZ 1 50
  /\ Exp.company_id <$> exp
     = (fun i => "E" ++ format_d 3 i)%string <$> seqZ 1 50
  /\ length rev = 50%nat /\ length exp = 50%nat
  /\ NoDup (Rev.company_id <$> rev) /\ NoDup (Exp.company_id <$> exp).
Proof.
  intros rev exp.
  assert (Hr : Rev.company_id <$> rev
               = (fun i => "R" ++ format_d 3 i)%string <$> seqZ 1 50).
  { apply Forall2_fmap_eq.
    apply (sample_loop_inv sample_revenue_row (fun _ => True)
             (fun i c => Rev.company_id c = ("R" ++ format_d 3 i)%string));
      [|exact I].
    intros i s _. split; [apply sample_revenue_row_id | exact I]. }
  assert (He : Exp.company_id <$> exp
               = (fun i => "E" ++ format_d 3 i)%string <$> seqZ 1 50).
  { apply Forall2_fmap_eq.
    apply (sample_loop_inv sample_expense_row (fun _ => True)
             (fun i c => Exp.company_id c = ("E" ++ format_d 3 i)%string));
      [|exact I].
    intros i s _. split; [apply sample_expense_row_id | exact I]. }
  split; [exact Hr|]. split; [exact He|].
  split; [rewrite <- (length_fmap Rev.company_id), Hr; reflexivity|].
  split; [rewrite <- (length_fmap Exp.company_id), He; reflexivity|].
  rewrite Hr, He.
  split; apply (bool_decide_unpack _); vm_compute; reflexivity.
Qed.

Lemma randint_bounds low high s :
  keeps_bounds s -> low < high ->
  low <= fst (randint low high s) < high
  /\ keeps_bounds (snd (randint low high s)).
Proof.
  intros Hs Hlt. unfold randint. simpl. split; [apply Hs; exact Hlt|].
  intros k l h Hlh. simpl. apply Hs. exact Hlh.
Qed.

Lemma choice_in {A} (a : list A) d s :
  keeps_bounds s -> (0 < length a)%nat ->
  fst (choice a d s) ∈ a /\ keeps_bounds (snd (choice a d s)).
Proof.
  intros Hs Hlen. unfold choice.
  destruct (randint_bounds 0 (Z.of_nat (length a)) s Hs ltac:(lia))
    as [Hi Hs'].
  destruct (randint 0 (Z.of_nat (length a)) s) as [i s']. simpl in *.
  split; [|exact Hs'].
  apply list_elem_of_In. apply nth_In. lia.
Qed.

Lemma sample_revenue_row_values i s :
  keeps_bounds s ->
  sample_revenue_values (fst (sample_revenue_row i s))
  /\ keeps_bounds (snd (sample_revenue_row i s)).
Proof.
  intros Hs. unfold sample_revenue_row.
  destruct (randint_bounds 50 500 s Hs ltac:(lia)) as [Hn Hs1].
  destruct (randint 50 500 s) as [n s1]. simpl in Hn, Hs1.
  destruct (choice_in [30; 45; 60]%float 30%float s1 Hs1 ltac:(simpl; lia))
    as [Hc Hs2].
  destruct (choice _ _ s1) as [c s2]. simpl in Hc, Hs2.
  destruct (choice_in [0.0; 0.0; 0.0; 0.05; 0.07; 0.10]%float 0.0%float
              s2 Hs2 ltac:(simpl; lia)) as [Hr Hs3].
  destruct (choice _ _ s2) as [r s3]. simpl in Hr, Hs3.
  destruct (choice_in [3; 6; 7; 8; 12]%float 3%float s3 Hs3
              ltac:(simpl; lia)) as [Hp Hs4].
  destruct (choice _ _ s3) as [pk s4]. simpl in Hp, Hs4.
  split; [|exact Hs4].
  unfold sample_revenue_values. simpl.
  split; [exists n; split; [exact Hn | reflexivity]|].
  split; [exact (list_elem_of_fmap_2 Num _ _ Hc)|].
  split; [exact (list_elem_of_fmap_2 Num _ _ Hr)|].
  exact (list_elem_of_fmap_2 Num _ _ Hp).
Qed.

Lemma sample_expense_row_values i s :
  keeps_bounds s ->
  sample_expense_values (fst (sample_expense_row i s))
  /\ keeps_bounds (snd (sample_expense_row i s)).
Proof.
  intros Hs. unfold sample_expense_row.
  destruct (randint_bounds 20 300 s Hs ltac:(lia)) as [Hn Hs1].
  destruct (randint 20 300 s) as [n s1]. simpl in Hn, Hs1.
  destruct (choice_in [30; 45; 60]%float 30%float s1 Hs1 ltac:(simpl; lia))
    as [Hc Hs2].
  destruct (choice _ _ s1) as [c s2]. simpl in Hc, Hs2.
  destruct (choice_in categories "燃料費"%string s2 Hs2 ltac:(simpl; lia))
    as [Hcat Hs3].
  destruct (choice _ _ s2) as [cat s3]. simpl in Hcat, Hs3.
  split; [|exact Hs3].
  unfold sample_expense_values. simpl.
  split; [exists n; split; [exact Hn | reflexivity]|].
  split; [exact (list_elem_of_fmap_2 Num _ _ Hc) | exact Hcat].
Qed.

Lemma Forall2_Forall_right {A B} (P : B -> Prop) (l : list A) (k : list B) :
  Forall2 (fun _ y => P y) l k -> Forall P k.
Proof. induction 1; constructor; assumption. Qed.

(** X12. When the seeded generator keeps to the bounds it is given, every row
    of the sample tables holds values the builders list: a monthly base of
    10000 times an integer from 50 to 499 (revenue) or from 20 to 299
    (expense), a payment cycle of 30, 45 or 60, a shipping-fee rate of 0,
    0.05, 0.07 or 0.10, a peak month of 3, 6, 7, 8 or 12, and one of the
    eight categories. *)
Theorem sample_tables_values seed :
  keeps_bounds (seed 42) -> keeps_bounds (seed 123) ->
  Forall sample_revenue_values (fst (generate_sample_revenue_master seed))
  /\ Forall sample_expense_values
       (fst (generate_sample_expense_master seed)).
Proof.
  intros H42 H123. split.
  - apply (Forall2_Forall_right _ (seqZ 1 50)).
    apply (sample_loop_inv sample_revenue_row keeps_bounds
             (fun _ c => sample_revenue_values c)); [|exact H42].
    intros i s Hs. apply sample_revenue_row_values. exact Hs.
  - apply (Forall2_Forall_right _ (seqZ 1 50)).
    apply (sample_loop_inv sample_expense_row keeps_bounds
             (fun _ c => sample_expense_values c)); [|exact H123].
    intros i s Hs. apply sample_expense_row_values. exact Hs.
Qed.

Lemma low_seed_keeps_bounds n : keeps_bounds (low_seed n).
Proof. intros k low high H. simpl. lia. Qed.

Lemma sample_tables_values_witness :
  keeps_bounds (low_seed 42) /\ keeps_bounds (low_seed 123)
  /\ Forall sample_revenue_values
       (fst (generate_sample_revenue_master low_seed))
  /\ Forall sample_expense_values
       (fst (generate_sample_expense_master low_seed)).
Proof.
  split; [apply low_seed_keeps_bounds|].
  split; [apply low_seed_keeps_bounds|].
  exact (sample_tables_values low_seed (low_seed_keeps_bounds 42)
           (low_seed_keeps_bounds 123)).
Defined.

Lemma sample_revenue_row_numeric i s :
  let c := fst (sample_revenue_row i s) in
  numeric (Rev.monthly_base c) /\ numeric (Rev.shipping_fee_rate c).
Proof.
  unfold sample_revenue_row.
  destruct (randint 50 500 s) as [n s1].
  destruct (choice _ _ s1) as [c s2].
  destruct (choice _ _ s2) as [r s3].
  destruct (choice _ _ s3) as [pk s4]. simpl. auto.
Qed.

Lemma sample_expense_row_numeric i s :
  numeric (Exp.monthly_base (fst (sample_expense_row i s))).
Proof.
  unfold sample_expense_row.
  destruct (randint 20 300 s) as [n s1].
  destruct (choice _ _ s1) as [c s2].
  destruct (choice _ _ s2) as [cat s3]. simpl. auto.
Qed.

(** X13. The estimator run on the two sample tables never raises [TypeError],
    whatever the generator drew when the tables were built and whatever
    the other arguments are: every cell it computes with is a number. *)
Theorem sample_tables_no_type_error seed y m infl sfs g e g' :
  estimate_daily_settlement
    (fst (generate_sample_revenue_master seed))
    (fst (generate_sample_expense_master seed)) y m infl sfs g
  = (Raise e, g') ->
  e <> TypeError.
Proof.
  intros H ->.
  assert (Hr : Forall (fun c => numeric (Rev.monthly_base c)
                                /\ numeric (Rev.shipping_fee_rate c))
                 (fst (generate_sample_revenue_master seed))).
  { apply (Forall2_Forall_right _ (seqZ 1 50)).
    apply (sample_loop_inv sample_revenue_row (fun _ => True)
             (fun _ c => numeric (Rev.monthly_base c)
                         /\ numeric (Rev.shipping_fee_rate c))); [|exact I].
    intros i s _. split; [apply sample_revenue_row_numeric | exact I]. }
  assert (He : Forall (fun c => numeric (Exp.monthly_base c))
                 (fst (generate_sample_expense_master seed))).
  { apply (Forall2_Forall_right _ (seqZ 1 50)).
    apply (sample_loop_inv sample_expense_row (fun _ => True)
             (fun _ c => numeric (Exp.monthly_base c))); [|exact I].
    intros i s _. split; [apply sample_expense_row_numeric | exact I]. }
  destruct (decide (1 <= m <= 12)) as [Hm|Hm].
  - destruct (estimate_raise_day _ _ _ _ _ _ _ _ _ Hm H)
      as (d & g0 & g1 & Hd).
    apply day_record_raise in Hd. destruct Hd as [Hd|Hd].
    + apply Exists_exists in Hd. destruct Hd as (c & Hin & Hc).
      rewrite Forall_forall in Hr. specialize (Hr c Hin). tauto.
    + apply Exists_exists in Hd. destruct Hd as (c & Hin & Hc).
      rewrite Forall_forall in He. specialize (He c Hin). tauto.
  - apply (estimate_raise_month _ _ _ _ _ _ _ _ _ Hm) in H. discriminate.
Qed.

Lemma sample_tables_no_type_error_witness :
  estimate_daily_settlement
    (fst (generate_sample_revenue_master low_seed))
    (fst (generate_sample_expense_master low_seed)) 2024 2 nan None
    constant_noise
  = (Raise ValueError, advance 100 constant_noise)
  /\ ValueError <> TypeError.
Proof.
  assert (H : estimate_daily_settlement
                (fst (generate_sample_revenue_master low_seed))
                (fst (generate_sample_expense_master low_seed)) 2024 2 nan
                None constant_noise
              = (Raise ValueError, advance 100 constant_noise))
    by (vm_compute; reflexivity).
  split; [exact H|].
  exact (sample_tables_no_type_error low_seed 2024 2 nan None constant_noise
           ValueError (advance 100 constant_noise) H).
Defined.

(** * The draws a run depends on *)

Lemma same_window_weaken n k g h :
  same_window (k + n) g h -> same_window n g h.
Proof.
  intros [Hp Hd]. split; [exact Hp|].
  intros i loc scale Hi. apply Hd. lia.
Qed.

Lemma reads_ret {A} (x : A) : reads 0 (ret x).
Proof. intros n g h H. simpl. split; [reflexivity | exact H]. Qed.

Lemma reads_lift {A} (r : result A) : reads 0 (lift r).
Proof.
  intros n g h H. unfold lift. destruct r; simpl;
    [split; [reflexivity | exact H] | reflexivity].
Qed.

Lemma reads_normal loc scale : reads 1 (normal loc scale).
Proof.
  intros n g h [Hp Hd]. unfold normal. simpl. split.
  - rewrite <- Hp. apply Hd. lia.
  - split; simpl; [congruence|].
    intros k l sc Hk. apply Hd. lia.
Qed.

Lemma reads_bind {A B} k1 k2 (c : M A) (f : A -> M B) :
  reads k1 c -> (forall a, reads k2 (f a)) -> reads (k1 + k2) (bind c f).
Proof.
  intros Hc Hf n g h H. unfold bind.
  assert (H' : same_window (k1 + (k2 + n)) g h)
    by (replace (k1 + (k2 + n))%nat with (k1 + k2 + n)%nat by lia; exact H).
  specialize (Hc _ _ _ H').
  destruct (c g) as [[a|e] g1], (c h) as [[b|e'] h1]; simpl in Hc;
    try contradiction; [|exact Hc].
  destruct Hc as [<- Hw]. apply Hf. exact Hw.
Qed.

Lemma reads_foldM {A B} k (f : A -> B -> M A) l :
  (forall acc x, reads k (f acc x)) ->
  forall acc, reads (length l * k) (foldM f acc l).
Proof.
  intros Hf. induction l as [|x t IH]; intros acc; simpl.
  - apply reads_ret.
  - apply reads_bind; [apply Hf | exact IH].
Qed.

Lemma reads_mapM {A B} k (f : A -> M B) l :
  (forall x, reads k (f x)) -> reads (length l * k) (mapM f l).
Proof.
  intros Hf. induction l as [|x t IH]; simpl.
  - apply reads_ret.
  - apply reads_bind; [apply Hf|].
    intros y. replace (length t * k)%nat with (length t * k + 0)%nat by lia.
    apply reads_bind; [exact IH|]. intros ys. apply reads_ret.
Qed.

Lemma reads_revenue_step dim tm s i df acc comp :
  reads 1 (revenue_step dim tm s i df acc comp).
Proof.
  unfold revenue_step.
  apply (reads_bind 0 1); [apply reads_lift|]. intros base.
  apply (reads_bind 1 0); [apply reads_normal|]. intros noise.
  apply (reads_bind 0 0); [apply reads_lift|]. intros ship.
  apply reads_ret.
Qed.

Lemma reads_expense_step dim s i df acc comp :
  reads 1 (expense_step dim s i df acc comp).
Proof.
  unfold expense_step.
  apply (reads_bind 0 1); [apply reads_lift|]. intros base.
  apply (reads_bind 1 0); [apply reads_normal|]. intros noise.
  apply reads_ret.
Qed.

Lemma reads_day_record rev exp y m dim s i d :
  reads (length rev + length exp) (day_record rev exp y m dim s i d).
Proof.
  unfold day_record.
  apply (reads_bind 0); [apply reads_lift|]. intros dt.
  apply reads_bind.
  { replace (length rev) with (length rev * 1)%nat by lia.
    apply reads_foldM. intros. apply reads_revenue_step. }
  intros rs.
  replace (length exp) with (length exp * 1 + 0)%nat by lia.
  apply reads_bind.
  { apply reads_foldM. intros. apply reads_expense_step. }
  intros e. apply reads_lift.
Qed.

Lemma reads_estimate rev exp y m infl sfs :
  reads (Z.to_nat (ndays y m) * (length rev + length exp))
        (estimate_daily_settlement rev exp y m infl sfs).
Proof.
  intros n g h H. unfold estimate_daily_settlement, bind, lift.
  destruct (monthrange y m) as [[d1 dim]|e] eqn:E; simpl; [|reflexivity].
  assert (Hdim : dim = ndays y m).
  { unfold monthrange in E. destruct (_ && _); [|discriminate].
    destruct (calendar_weekday y m 1); inversion E. reflexivity. }
  subst dim.
  pose proof (reads_mapM (length rev + length exp)
                (day_record rev exp y m (ndays y m) (season_factor sfs m)
                            (inflation_factor infl))
                (seqZ 1 (ndays y m))
                (fun d => reads_day_record _ _ _ _ _ _ _ d)) as Hr.
  rewrite length_seqZ in Hr. specialize (Hr n g h H).
  destruct (mapM _ _ g) as [[a|e] g1], (mapM _ _ h) as [[b|e'] h1];
    simpl in *; try contradiction; [|exact Hr].
  destruct Hr as [<- Hw]. split; [reflexivity | exact Hw].
Qed.

(** X14. The outcome of a run depends on the generator only through the draws
    it makes: two generators at the same position that return the same
    values for the next (days of the month) times (rows of the two tables)
    draws give the same frame, or the same error. *)
Theorem outcome_depends_on_window rev exp y m infl sfs g h :
  pos g = pos h ->
  (forall k loc scale,
     (pos g <= k
      < pos g + Z.to_nat (ndays y m) * (length rev + length exp))%nat ->
     draws g k loc scale = draws h k loc scale) ->
  fst (estimate_daily_settlement rev exp y m infl sfs g)
  = fst (estimate_daily_settlement rev exp y m infl sfs h).
Proof.
  intros Hp Hd.
  assert (Hw : same_window
                 (Z.to_nat (ndays y m) * (length rev + length exp) + 0)
                 g h).
  { split; [exact Hp|]. intros k loc scale Hk. apply Hd. lia. }
  pose proof (reads_estimate rev exp y m infl sfs 0%nat g h Hw) as H.
  destruct (estimate_daily_settlement rev exp y m infl sfs g)
    as [[a|e] g1],
    (estimate_daily_settlement rev exp y m infl sfs h) as [[b|e'] h1];
    simpl in *; try contradiction.
  - destruct H as [-> _]. reflexivity.
  - subst. reflexivity.
Qed.

Lemma hundred_ones_window k loc scale :
  (pos constant_noise <= k
   < pos constant_noise
     + Z.to_nat (ndays 2024 1)
       * (length [rev_row 31 1 0] + length [exp_row 31]))%nat ->
  draws constant_noise k loc scale = draws hundred_ones k loc scale.
Proof.
  simpl. intros Hk.
  destruct (Nat.ltb_spec k 100); [reflexivity|].
  change (Z.to_nat (ndays 2024 1)) with 31%nat in Hk. lia.
Qed.

Lemma outcome_depends_on_window_witness :
  pos constant_noise = pos hundred_ones
  /\ fst january_halves
     = fst (estimate_daily_settlement [rev_row 31 1 0] [exp_row 31] 2024 1 0
              (Some {[ 1 := 0.4%float ]}) hundred_ones).
Proof.
  assert (Hp : pos constant_noise = pos hundred_ones) by reflexivity.
  split; [exact Hp|].
  exact (outcome_depends_on_window [rev_row 31 1 0] [exp_row 31] 2024 1 0
           (Some {[ 1 := 0.4%float ]}) constant_noise hundred_ones
           Hp hundred_ones_window).
Defined.

(** * What the estimator reads from a row *)

Lemma revenue_step_alike dim tm s i df acc a b g :
  rev_alike tm a b ->
  revenue_step dim tm s i df acc a g = revenue_step dim tm s i df acc b g.
Proof.
  intros (Hb & Hr & Hp).
  unfold revenue_step, peak_bonus. rewrite Hb, Hr, Hp. reflexivity.
Qed.

Lemma expense_step_alike dim s i df acc a b g :
  exp_alike a b ->
  expense_step dim s i df acc a g = expense_step dim s i df acc b g.
Proof.
  unfold exp_alike, expense_step. intros ->. reflexivity.
Qed.

Lemma day_record_alike rev rev' exp exp' y m dim s i d g :
  Forall2 (rev_alike m) rev rev' -> Forall2 exp_alike exp exp' ->
  day_record rev exp y m dim s i d g = day_record rev' exp' y m dim s i d g.
Proof.
  intros Hr He. unfold day_record, bind.
  destruct (lift (mk_date y m d) g) as [[dt|e] g1]; [|reflexivity].
  rewrite (foldM_rel (rev_alike m) _
             (revenue_step dim m s i (day_factor (weekday dt))) rev rev')
    by (try exact Hr; intros; apply revenue_step_alike; assumption).
  destruct (foldM _ _ rev' g1) as [[rs|e] g2]; [|reflexivity].
  rewrite (foldM_rel exp_alike _
             (expense_step dim s i (day_factor (weekday dt))) exp exp')
    by (try exact He; intros; apply expense_step_alike; assumption).
  reflexivity.
Qed.

(** X15. The estimator reads three things from a revenue row, its monthly
    base, its shipping-fee rate and whether its peak month is the target
    month, and one from an expense row, its monthly base.  Tables that
    agree on these row by row give the same outcome from the same
    generator, whatever their identifiers, names and other peak months
    are. *)
Theorem outcome_depends_on_amounts rev rev' exp exp' y m infl sfs g :
  Forall2 (rev_alike m) rev rev' ->
  Forall2 exp_alike exp exp' ->
  estimate_daily_settlement rev exp y m infl sfs g
  = estimate_daily_settlement rev' exp' y m infl sfs g.
Proof.
  intros Hr He. unfold estimate_daily_settlement, bind.
  destruct (lift (monthrange y m) g) as [[mr|e] g1]; [|reflexivity].
  rewrite (mapM_ext _ (day_record rev' exp' y m mr.2 (season_factor sfs m)
                                  (inflation_factor infl)))
    by (intros; apply day_record_alike; assumption).
  reflexivity.
Qed.

Lemma outcome_depends_on_amounts_witness :
  Forall2 (rev_alike 2) [rev_row 3000000 0 1] [rev_row_renamed]
  /\ february_2024
     = estimate_daily_settlement [rev_row_renamed] [] 2024 2 0
         (Some {[ 2 := 0.88%float ]}) constant_noise.
Proof.
  assert (Hr : Forall2 (rev_alike 2) [rev_row 3000000 0 1] [rev_row_renamed])
    by (repeat constructor).
  assert (He : Forall2 exp_alike [] []) by constructor.
  split; [exact Hr|].
  exact (outcome_depends_on_amounts [rev_row 3000000 0 1] [rev_row_renamed]
           [] [] 2024 2 0 (Some {[ 2 := 0.88%float ]}) constant_noise
           Hr He).
Defined.

(** * The objects a run touches *)

Lemma with_generator_same w : with_generator (generator w) w = w.
Proof. destruct w; reflexivity. Qed.

Lemma day_in_session_run y m dim s i d w :
  day_in_session y m dim s i d w
  = (let (r, g') := day_record (rev_master w) (exp_master w) y m dim s i d
                               (generator w) in
     (r, with_generator g' w)).
Proof.
  unfold day_in_session, day_record, w_bind, bind, w_lift, lift,
    iterrows_rev, iterrows_exp, draw_with.
  destruct (mk_date y m d) as [dt|e]; simpl;
    [|rewrite with_generator_same; reflexivity].
  destruct (foldM _ _ (rev_master w) (generator w)) as [[rs|e] g1]; simpl;
    [|reflexivity].
  destruct (foldM _ _ (exp_master w) g1) as [[ex|e] g2]; reflexivity.
Qed.

Lemma mapW_day_run y m dim s i l : forall w,
  mapW (day_in_session y m dim s i) l w
  = (let (r, g') := mapM (day_record (rev_master w) (exp_master w)
                                     y m dim s i) l (generator w) in
     (r, with_generator g' w)).
Proof.
  induction l as [|d t IH]; intros w; simpl.
  - unfold w_ret, ret. rewrite with_generator_same. reflexivity.
  - unfold w_bind, bind. rewrite day_in_session_run.
    destruct (day_record _ _ y m dim s i d (generator w)) as [[r|e] g1];
      [|reflexivity].
    rewrite IH. simpl.
    destruct (mapM _ t g1) as [[rs|e] g2]; reflexivity.
Qed.

Lemma alter_last {A} (f : A -> A) (l : list A) x :
  alter f (length l) (l ++ [x]) = l ++ [f x].
Proof.
  induction l as [|a t IH]; simpl; [reflexivity|].
  f_equal. exact IH.
Qed.

(** C10. The estimator, run on the objects of a session, changes neither
    the revenue table nor the expense table, nor any frame that existed
    before, nor the session's stored reference: its outcome and the
    generator afterwards are those of the estimator applied to the two
    tables as they were, and when it returns, the one object it has
    created and written to is the frame it returns, added after the
    existing ones. *)
Theorem tables_unchanged y m infl sfs w :
  let run := estimate_in_session y m infl sfs w in
  let outcome :=
    estimate_daily_settlement (rev_master w) (exp_master w) y m infl sfs
                              (generator w) in
  rev_master (snd run) = rev_master w
  /\ exp_master (snd run) = exp_master w
  /\ daily_result (snd run) = daily_result w
  /\ generator (snd run) = snd outcome
  /\ match fst outcome with
     | Ok rows =>
         fst run = Ok (length (frames w))
         /\ exists f, frames (snd run) = frames w ++ [f]
                      /\ frame_rows f = rows
     | Raise e => fst run = Raise e /\ frames (snd run) = frames w
     end.
Proof.
  unfold estimate_in_session, estimate_daily_settlement,
    w_bind, bind, w_lift, lift.
  destruct (monthrange y m) as [[d1 dim]|e]; simpl;
    [|repeat split; reflexivity].
  rewrite mapW_day_run.
  destruct (mapM _ (seqZ 1 dim) (generator w)) as [[records|e] g1]; simpl;
    [|repeat split; reflexivity].
  repeat split; try reflexivity.
  rewrite alter_last. eexists. split; reflexivity.
Qed.

(** The same holds for the button of the report page, which stores the
    reference of the returned frame. *)
Lemma run_daily_report_tables y m infl sfs w :
  rev_master (snd (run_daily_report y m infl sfs w)) = rev_master w
  /\ exp_master (snd (run_daily_report y m infl sfs w)) = exp_master w.
Proof.
  unfold run_daily_report, estimate_in_session, w_bind, w_lift.
  destruct (monthrange y m) as [[d1 dim]|e]; simpl;
    [|split; reflexivity].
  rewrite mapW_day_run.
  destruct (mapM _ (seqZ 1 dim) (generator w)) as [[records|e] g1]; simpl;
    split; reflexivity.
Qed.

(** The tables of a session are objects that can be written: the save
    button of the data-input page replaces the revenue table. *)
Lemma save_rev_master_writes edited w :
  rev_master (snd (save_rev_master edited w)) = edited
  /\ exp_master (snd (save_rev_master edited w)) = exp_master w.
Proof. split; reflexivity. Qed.
